(** * RemoteSource: the source-side processor reading a remote query result

    A shallow embedding of [src/Processors/Sources/RemoteSource.cpp]
    (ClickHouse): [RemoteSource], [RemoteTotalsSource] and
    [RemoteExtremesSource], with the properties of their [prepare] /
    [tryGenerate] / [generate] state machine.

    Layout: the data model (blocks, chunks, ports), a state-and-exception
    monad in which the methods are written, the interface of the remote
    query executor, the generic [ISource] base and a pipeline driver, the
    three sources, two executors and the concrete sources used in
    scenarios, and then the theorems. *)

From Stdlib Require Import ZArith NArith List Bool String Lia.
Import ListNotations.
Local Open Scope bool_scope.

(** ** Exceptions *)

(** The exceptions of this code all have the error code LOGICAL_ERROR;
    the message is kept without its formatted arguments. *)
Inductive Exception : Type :=
| LOGICAL_ERROR (message : string).

(** What a call gives: it returns a value or throws. *)
Inductive Outcome (A : Type) : Type :=
| Returned (a : A)
| Thrown (e : Exception).
Arguments Returned {A} a.
Arguments Thrown {A} e.

(** ** Blocks and chunks *)

(** The data types of a header.  The code distinguishes only
    [DataTypeAggregateFunction] (by [typeid_cast]) from every other type. *)
Inductive DataType : Type :=
| DataTypeAggregateFunction (function_name : string)
| DataTypeOrdinary (type_name : string).

Definition is_DataTypeAggregateFunction (t : DataType) : bool :=
  match t with
  | DataTypeAggregateFunction _ => true
  | DataTypeOrdinary _ => false
  end.

(** A column is the sequence of its values. *)
Definition Column : Type := list Z.

Record ColumnWithTypeAndName : Type := {
  column : Column;
  type : DataType;
  name : string
}.

(** [BlockInfo]: [is_overflows] and the Int32 [bucket_num] (default -1). *)
Record BlockInfo : Type := {
  is_overflows : bool;
  bucket_num : Z
}.

Definition BlockInfo_default : BlockInfo :=
  {| is_overflows := false; bucket_num := (-1)%Z |}.

Record Block : Type := {
  data : list ColumnWithTypeAndName;
  info : BlockInfo
}.

(** [Block{}] *)
Definition Block_empty : Block := {| data := []; info := BlockInfo_default |}.

(** [Block::operator bool]: the block has columns. *)
Definition Block_bool (b : Block) : bool :=
  match data b with
  | [] => false
  | _ :: _ => true
  end.

(** [Block::rows]: the size of the first column, 0 without columns. *)
Definition Block_rows (b : Block) : N :=
  match data b with
  | [] => 0%N
  | c :: _ => N.of_nat (List.length (column c))
  end.

Definition Block_getColumns (b : Block) : list Column := map column (data b).

Definition Block_getDataTypes (b : Block) : list DataType := map type (data b).

(** [AggregatedChunkInfo] *)
Record AggregatedChunkInfo : Type := {
  agg_is_overflows : bool;
  agg_bucket_num : Z
}.

Record Chunk : Type := {
  columns : list Column;
  num_rows : N;
  chunk_info : option AggregatedChunkInfo
}.

(** [Chunk()] *)
Definition Chunk_empty : Chunk :=
  {| columns := []; num_rows := 0%N; chunk_info := None |}.

(** The members as [Chunk(columns, num_rows)] initialises them. *)
Definition Chunk_init (cols : list Column) (rows : N) : Chunk :=
  {| columns := cols; num_rows := rows; chunk_info := None |}.

(** [Chunk::checkNumRowsIsConsistent] ([Processors/Chunk.cpp], which is
    not among the sources): every column has [num_rows] rows. *)
Definition Chunk_checkNumRowsIsConsistent (c : Chunk) : bool :=
  forallb (fun col => N.eqb (N.of_nat (List.length col)) (num_rows c)) (columns c).

Definition invalid_rows_error : Exception :=
  LOGICAL_ERROR "Invalid number of rows in Chunk column".

(** [Chunk(columns, num_rows)]: the constructor throws when a column has
    another number of rows. *)
Definition Chunk_make (cols : list Column) (rows : N) : Outcome Chunk :=
  if Chunk_checkNumRowsIsConsistent (Chunk_init cols rows)
  then Returned (Chunk_init cols rows)
  else Thrown invalid_rows_error.

Definition Chunk_setChunkInfo (i : AggregatedChunkInfo) (c : Chunk) : Chunk :=
  {| columns := columns c; num_rows := num_rows c; chunk_info := Some i |}.

(** [Chunk::operator bool]: the chunk has rows or columns. *)
Definition Chunk_bool (c : Chunk) : bool :=
  negb (N.eqb (num_rows c) 0) ||
  match columns c with [] => false | _ :: _ => true end.

(** ** Ports *)

(** Modelled from the spec: the output [Port] ([Processors/Port.h] is not
    among the sources).  A single-slot edge with the operations [finish],
    [isFinished], [canPush] and [push]; a port can take a chunk when the
    consumer asked for data and the slot is free.  [pushed] records every
    chunk ever pushed, oldest first, so that pushes can be counted. *)
Record Port : Type := {
  header : Block;
  is_finished : bool;
  is_needed : bool;
  slot : option Chunk;
  pushed : list Chunk
}.

Module OutputPort.

Definition create (h : Block) : Port :=
  {| header := h; is_finished := false; is_needed := false;
     slot := None; pushed := [] |}.

Definition finish (p : Port) : Port :=
  {| header := header p; is_finished := true; is_needed := is_needed p;
     slot := slot p; pushed := pushed p |}.

Definition isFinished (p : Port) : bool := is_finished p.

Definition canPush (p : Port) : bool :=
  is_needed p && match slot p with None => true | Some _ => false end.

Definition push (c : Chunk) (p : Port) : Port :=
  {| header := header p; is_finished := is_finished p;
     is_needed := is_needed p; slot := Some c; pushed := pushed p ++ [c] |}.

(** The consumer's side of the edge: ask for data, take the chunk. *)
Definition setNeeded (p : Port) : Port :=
  {| header := header p; is_finished := is_finished p; is_needed := true;
     slot := slot p; pushed := pushed p |}.

Definition pull (p : Port) : option Chunk * Port :=
  (slot p,
   {| header := header p; is_finished := is_finished p;
      is_needed := is_needed p; slot := None; pushed := pushed p |}).

End OutputPort.

(** ** Processor statuses *)

(** Modelled from the spec: [IProcessor::Status], with the five states the
    spec lists ([Processors/IProcessor.h] is not among the sources). *)
Inductive Status : Type := NotReady | Ready | Async | Finished | PortFull.

Definition Status_eqb (a b : Status) : bool :=
  match a, b with
  | NotReady, NotReady | Ready, Ready | Async, Async
  | Finished, Finished | PortFull, PortFull => true
  | _, _ => false
  end.

(** ** A state monad with exceptions

    A method runs on the object's state and either returns or throws; what
    it wrote to the object before throwing stays written. *)
Definition M (S A : Type) : Type := S -> Outcome A * S.

Definition ret {S A : Type} (a : A) : M S A := fun s => (Returned a, s).

Definition bind {S A B : Type} (m : M S A) (k : A -> M S B) : M S B :=
  fun s =>
    match m s with
    | (Returned a, s') => k a s'
    | (Thrown e, s') => (Thrown e, s')
    end.

Definition throw {S A : Type} (e : Exception) : M S A := fun s => (Thrown e, s).

(** A call that does not touch the object. *)
Definition call {S A : Type} (o : Outcome A) : M S A := fun s => (o, s).

Definition gets {S A : Type} (f : S -> A) : M S A := fun s => (Returned (f s), s).

Definition modify {S : Type} (f : S -> S) : M S unit := fun s => (Returned tt, f s).

Definition when {S : Type} (b : bool) (m : M S unit) : M S unit :=
  if b then m else ret tt.

Declare Scope method_scope.
Delimit Scope method_scope with method.
Notation "x <- m ;; k" := (bind m (fun x => k))
  (at level 61, m at next level, right associativity) : method_scope.
Notation "m ;; k" := (bind m (fun _ => k))
  (at level 61, right associativity) : method_scope.

(** ** The remote query executor

    [QueryPipeline/RemoteQueryExecutor.h] is not among the sources; its
    interface is a parameter.  [H] is the executor's state, [RC] the read
    context the source owns and hands to [read], [finish] and [cancel].
    The operations are taken to return normally: a fault of the executor
    aborts the pipeline and is outside this development. *)

(** The outcome of the non-blocking [read]; [Data] with a block without
    columns is the end of the stream. *)
Inductive ReadResult : Type :=
| Nothing
| FileDescriptor (descriptor : Z)
| ParallelReplicasToken
| Data (block : Block).

Class RemoteQueryExecutor (H RC : Type) : Type := {
  null_read_context : RC;
  getHeader : H -> Block;
  setProgressCallback : H -> H;
  setProfileInfoCallback : H -> H;
  sendQuery : H -> H;
  read : H -> RC -> ReadResult * (H * RC);
  readBlock : H -> Block * H;
  finish : H -> RC -> H * RC;
  cancel : H -> RC -> H * RC;
  getTotals : H -> Block * H;
  getExtremes : H -> Block * H
}.

Definition UUID : Type := N.

(** ** The generic source base

    The fields of [ISource] that a derived source inherits: its [output]
    port (what [getPort()] returns), the [finished] and [has_input] flags
    and the chunk waiting to be pushed. *)
Record ISource : Type := {
  output : Port;
  finished : bool;
  has_input : bool;
  current_chunk : Chunk
}.

Definition ISource_create (h : Block) : ISource :=
  {| output := OutputPort.create h; finished := false; has_input := false;
     current_chunk := Chunk_empty |}.

Definition set_output (p : Port) (b : ISource) : ISource :=
  {| output := p; finished := finished b; has_input := has_input b;
     current_chunk := current_chunk b |}.

Definition set_finished (v : bool) (b : ISource) : ISource :=
  {| output := output b; finished := v; has_input := has_input b;
     current_chunk := current_chunk b |}.

Definition set_has_input (v : bool) (b : ISource) : ISource :=
  {| output := output b; finished := finished b; has_input := v;
     current_chunk := current_chunk b |}.

Definition set_current_chunk (c : Chunk) (b : ISource) : ISource :=
  {| output := output b; finished := finished b; has_input := has_input b;
     current_chunk := c |}.

(** ** The generic [ISource] methods and the pipeline driver *)

Module ISourceBase.

(** Modelled from the spec: [ISource::prepare] ([Processors/ISource.cpp]
    is not among the sources), the generic base logic that inspects the
    output port's fullness and finish state: a finished source finishes
    its port; a port finished by the consumer ends the source; a port
    that cannot take a chunk is full; without a chunk to push the source
    is ready to work; otherwise the waiting chunk is pushed and the port
    is full. *)
Definition prepare (b : ISource) : Status * ISource :=
  if finished b then
    (Finished, set_output (OutputPort.finish (output b)) b)
  else if OutputPort.isFinished (output b) then (Finished, b)
  else if negb (OutputPort.canPush (output b)) then (PortFull, b)
  else if negb (has_input b) then (Ready, b)
  else
    (PortFull,
     set_has_input false
       (set_output (OutputPort.push (current_chunk b) (output b)) b)).

Section Derived.

(** A derived source: its state [St] holds the base. *)
Context {St : Type}.
Variable get_base : St -> ISource.
Variable put_base : ISource -> St -> St.

Local Open Scope method_scope.

Definition inherited_prepare : M St Status :=
  fun s =>
    let r := prepare (get_base s) in
    (Returned (fst r), put_base (snd r) s).

(** Modelled from the spec: the default [ISource::tryGenerate], which
    turns the empty chunk of [generate] into the end of the stream. *)
Definition default_tryGenerate (generate : M St Chunk) : M St (option Chunk) :=
  chunk <- generate ;;
  if negb (Chunk_bool chunk) then ret None else ret (Some chunk).

(** Modelled from the spec: [ISource::work], the producing step.  A
    chunk that is not empty waits to be pushed; an empty one is
    dropped; no chunk, or an exception, finishes the source. *)
Definition work (tryGenerate : M St (option Chunk)) : M St unit :=
  fun s =>
    match tryGenerate s with
    | (Returned (Some chunk), s') =>
        let b := set_current_chunk chunk (get_base s') in
        (Returned tt,
         put_base (if Chunk_bool chunk then set_has_input true b else b) s')
    | (Returned None, s') =>
        (Returned tt, put_base (set_finished true (get_base s')) s')
    | (Thrown e, s') =>
        (Thrown e, put_base (set_finished true (get_base s')) s')
    end.

End Derived.

End ISourceBase.

(** How a run of the pipeline on one source ended. *)
Inductive RunResult : Type :=
| Done
| Suspended
| Stalled
| Faulted (e : Exception)
| OutOfFuel.

Module Pipeline.
Section Driver.

Context {St : Type}.
Variable prepare : M St Status.
Variable work : M St unit.
Variable get_output : St -> Port.
Variable put_output : Port -> St -> St.

(** The consumer of the main output: it takes the chunk in the slot, if
    any, and asks for more. *)
Definition consume (s : St) : St :=
  put_output (OutputPort.setNeeded (snd (OutputPort.pull (get_output s)))) s.

(** Modelled from the spec: the scheduler of section 4.1 on one source
    (the pipeline executor is not among the sources).  [prepare] is
    consulted; [Ready] authorises exactly one call of the producing step
    before [prepare] is consulted again; on [PortFull] the step is not
    called until the consumer has freed the port; [Finished] ends the
    run; on [Async] the run is suspended on the wait handle. *)
Fixpoint drive (fuel : nat) (s : St) : RunResult * St :=
  match fuel with
  | O => (OutOfFuel, s)
  | S fuel' =>
      match prepare (consume s) with
      | (Thrown e, s') => (Faulted e, s')
      | (Returned Finished, s') => (Done, s')
      | (Returned Async, s') => (Suspended, s')
      | (Returned NotReady, s') => (Stalled, s')
      | (Returned PortFull, s') => drive fuel' s'
      | (Returned Ready, s') =>
          match work s' with
          | (Returned _, s'') => drive fuel' s''
          | (Thrown e, s'') => (Faulted e, s'')
          end
      end
  end.

End Driver.
End Pipeline.

(** ** RemoteSource *)

Module RemoteSource.
Section WithExecutor.

Context {H RC : Type} `{RemoteQueryExecutor H RC}.

(** The object: the [ISource] base and the members of [RemoteSource].
    [query_executor] is a shared pointer in the code; here the source
    holds the executor's state, which is the view of one source. *)
Record t : Type := {
  base : ISource;
  was_query_canceled : bool;
  was_query_sent : bool;
  add_aggregation_info : bool;
  query_executor : H;
  dependency_port : option Port;
  async_read : bool;
  is_async_state : bool;
  read_context : RC;
  uuid : UUID;
  fd : Z
}.

Definition set_base (v : ISource) (s : t) : t :=
  {| base := v; was_query_canceled := was_query_canceled s;
     was_query_sent := was_query_sent s;
     add_aggregation_info := add_aggregation_info s;
     query_executor := query_executor s;
     dependency_port := dependency_port s; async_read := async_read s;
     is_async_state := is_async_state s; read_context := read_context s;
     uuid := uuid s; fd := fd s |}.

Definition set_was_query_canceled (v : bool) (s : t) : t :=
  {| base := base s; was_query_canceled := v;
     was_query_sent := was_query_sent s;
     add_aggregation_info := add_aggregation_info s;
     query_executor := query_executor s;
     dependency_port := dependency_port s; async_read := async_read s;
     is_async_state := is_async_state s; read_context := read_context s;
     uuid := uuid s; fd := fd s |}.

Definition set_was_query_sent (v : bool) (s : t) : t :=
  {| base := base s; was_query_canceled := was_query_canceled s;
     was_query_sent := v;
     add_aggregation_info := add_aggregation_info s;
     query_executor := query_executor s;
     dependency_port := dependency_port s; async_read := async_read s;
     is_async_state := is_async_state s; read_context := read_context s;
     uuid := uuid s; fd := fd s |}.

Definition set_session (v : H * RC) (s : t) : t :=
  {| base := base s; was_query_canceled := was_query_canceled s;
     was_query_sent := was_query_sent s;
     add_aggregation_info := add_aggregation_info s;
     query_executor := fst v;
     dependency_port := dependency_port s; async_read := async_read s;
     is_async_state := is_async_state s; read_context := snd v;
     uuid := uuid s; fd := fd s |}.

Definition set_dependency_port (v : option Port) (s : t) : t :=
  {| base := base s; was_query_canceled := was_query_canceled s;
     was_query_sent := was_query_sent s;
     add_aggregation_info := add_aggregation_info s;
     query_executor := query_executor s;
     dependency_port := v; async_read := async_read s;
     is_async_state := is_async_state s; read_context := read_context s;
     uuid := uuid s; fd := fd s |}.

Definition set_is_async_state (v : bool) (s : t) : t :=
  {| base := base s; was_query_canceled := was_query_canceled s;
     was_query_sent := was_query_sent s;
     add_aggregation_info := add_aggregation_info s;
     query_executor := query_executor s;
     dependency_port := dependency_port s; async_read := async_read s;
     is_async_state := v; read_context := read_context s;
     uuid := uuid s; fd := fd s |}.

Definition set_fd (v : Z) (s : t) : t :=
  {| base := base s; was_query_canceled := was_query_canceled s;
     was_query_sent := was_query_sent s;
     add_aggregation_info := add_aggregation_info s;
     query_executor := query_executor s;
     dependency_port := dependency_port s; async_read := async_read s;
     is_async_state := is_async_state s; read_context := read_context s;
     uuid := uuid s; fd := v |}.

(** Calls on [query_executor]. *)
Definition on_executor (f : H -> H) : M t unit :=
  modify (fun s => set_session (f (query_executor s), read_context s) s).

Definition executor_finish : M t unit :=
  modify (fun s => set_session (finish (query_executor s) (read_context s)) s).

Definition executor_cancel : M t unit :=
  modify (fun s => set_session (cancel (query_executor s) (read_context s)) s).

Definition executor_read : M t ReadResult :=
  fun s =>
    let r := read (query_executor s) (read_context s) in
    (Returned (fst r), set_session (snd r) s).

Definition executor_readBlock : M t Block :=
  fun s =>
    let r := readBlock (query_executor s) in
    (Returned (fst r), set_session (snd r, read_context s) s).

(** [getPort().finish()] *)
Definition finish_output : M t unit :=
  modify (fun s => set_base (set_output (OutputPort.finish (output (base s))) (base s)) s).

(** The constructor: aggregation info is added when the caller asks for
    it or when the header has a column of an aggregate-function type. *)
Definition create (executor : H) (add_aggregation_info_ async_read_ : bool)
    (uuid_ : UUID) : t :=
  let sample := getHeader executor in
  {| base := ISource_create sample;
     was_query_canceled := false;
     was_query_sent := false;
     add_aggregation_info :=
       fold_left
         (fun acc type_ => if is_DataTypeAggregateFunction type_ then true else acc)
         (Block_getDataTypes sample) add_aggregation_info_;
     query_executor := executor;
     dependency_port := None;
     async_read := async_read_;
     is_async_state := false;
     read_context := null_read_context;
     uuid := uuid_;
     fd := (-1)%Z |}.

(** [connectToScheduler]: a second output port with an empty header,
    connected to the scheduler's input; a port of the model that exists is
    a connected one. *)
Definition connectToScheduler (s : t) : t :=
  set_dependency_port (Some (OutputPort.create Block_empty)) s.

Definition getParallelReplicasGroupUUID (s : t) : UUID := uuid s.

(** [ISource::prepare], the base class's method, acts on the base part of
    the object only; [Processors/ISource.cpp] is not among the sources,
    so it is a parameter here. *)
Variable ISource_prepare : ISource -> Status * ISource.

Definition base_prepare : M t Status :=
  fun s =>
    let r := ISource_prepare (base s) in
    (Returned (fst r), set_base (snd r) s).

Local Open Scope method_scope.

Definition prepare : M t Status :=
  canceled <- gets was_query_canceled ;;
  if canceled then
    finish_output ;;
    ret Finished
  else
    async <- gets is_async_state ;;
    if async then ret Async
    else
      status <- base_prepare ;;
      if Status_eqb status Finished then
        executor_finish ;;
        modify (fun s =>
          match dependency_port s with
          | Some p => set_dependency_port (Some (OutputPort.finish p)) s
          | None => s
          end) ;;
        modify (set_is_async_state false) ;;
        ret status
      else
        when (Status_eqb status PortFull)
          (modify (fun s =>
             match dependency_port s with
             | Some p =>
                 if negb (OutputPort.isFinished p) && OutputPort.canPush p
                 then set_dependency_port (Some (OutputPort.push Chunk_empty p)) s
                 else s
             | None => s
             end)) ;;
        ret status.

(** Lines 147-164 of [tryGenerate]: what is done with the block read. *)
Definition wrap_block (block : Block) : M t (option Chunk) :=
  if negb (Block_bool block) then
    executor_finish ;;
    ret None
  else
    let num_rows := Block_rows block in
    chunk <- call (Chunk_make (Block_getColumns block) num_rows) ;;
    add_info <- gets add_aggregation_info ;;
    if add_info then
      let info_ := {| agg_is_overflows := is_overflows (info block);
                      agg_bucket_num := bucket_num (info block) |} in
      ret (Some (Chunk_setChunkInfo info_ chunk))
    else
      ret (Some chunk).

(** Lines 96-116 of [tryGenerate]: the callbacks are registered and the
    query is sent unless that was done before. *)
Definition send_query_once : M t unit :=
  sent <- gets was_query_sent ;;
  when (negb sent)
    (on_executor setProgressCallback ;;
     on_executor setProfileInfoCallback ;;
     on_executor sendQuery ;;
     modify (set_was_query_sent true)).

Definition tryGenerate : M t (option Chunk) :=
  canceled <- gets was_query_canceled ;;
  if canceled then ret None
  else
    send_query_once ;;
    async <- gets async_read ;;
    if async then
      res <- executor_read ;;
      match res with
      | Nothing =>
          throw (LOGICAL_ERROR
            "Got an empty packet from the RemoteQueryExecutor. This is a bug")
      | FileDescriptor descriptor =>
          modify (set_fd descriptor) ;;
          modify (set_is_async_state true) ;;
          ret (Some Chunk_empty)
      | ParallelReplicasToken =>
          modify (set_is_async_state false) ;;
          ret (Some Chunk_empty)
      | Data block =>
          modify (set_is_async_state false) ;;
          wrap_block block
      end
    else
      block <- executor_readBlock ;;
      wrap_block block.

Definition onCancel : M t unit :=
  modify (set_was_query_canceled true) ;;
  executor_cancel.

Definition onUpdatePorts : M t unit :=
  port_finished <- gets (fun s => OutputPort.isFinished (output (base s))) ;;
  when port_finished
    (modify (set_was_query_canceled true) ;;
     executor_finish).

(** What can happen to the object between two moments of its life: the
    scheduler calls one of its methods, or the processors at the other
    end of its ports change the state of the ports. *)
Inductive Event : Type :=
| CallPrepare
| CallTryGenerate
| CallOnCancel
| CallOnUpdatePorts
| PortsChanged (on_output on_dependency : Port -> Port).

Definition after (e : Event) (s : t) : t :=
  match e with
  | CallPrepare => snd (prepare s)
  | CallTryGenerate => snd (tryGenerate s)
  | CallOnCancel => snd (onCancel s)
  | CallOnUpdatePorts => snd (onUpdatePorts s)
  | PortsChanged on_output on_dependency =>
      set_dependency_port (option_map on_dependency (dependency_port s))
        (set_base (set_output (on_output (output (base s))) (base s)) s)
  end.

Definition after_all (es : list Event) (s : t) : t :=
  fold_left (fun s e => after e s) es s.

End WithExecutor.

Arguments t : clear implicits.

Section InPipeline.

Context {H RC : Type} `{RemoteQueryExecutor H RC}.

(** The source in a pipeline: [prepare] over the generic base, the
    inherited [work] around [tryGenerate], and a run of the driver. *)
Definition pipeline_prepare : M (t H RC) Status := prepare ISourceBase.prepare.

Definition work : M (t H RC) unit := ISourceBase.work base set_base tryGenerate.

Definition run (fuel : nat) (s : t H RC) : RunResult * t H RC :=
  Pipeline.drive pipeline_prepare work (fun s => output (base s))
    (fun p s => set_base (set_output p (base s)) s) fuel s.

(** The chunks the source put on its main output, oldest first. *)
Definition emitted (s : t H RC) : list Chunk := pushed (output (base s)).

End InPipeline.
End RemoteSource.


(** ** The totals and extremes sources *)

Module RemoteTotalsSource.
Section WithExecutor.

Context {H RC : Type} `{RemoteQueryExecutor H RC}.

Record t : Type := {
  base : ISource;
  query_executor : H
}.

Definition set_base (b : ISource) (s : t) : t :=
  {| base := b; query_executor := query_executor s |}.

Definition create (executor : H) : t :=
  {| base := ISource_create (getHeader executor); query_executor := executor |}.

Local Open Scope method_scope.

Definition executor_getTotals : M t Block :=
  fun s =>
    let r := getTotals (query_executor s) in
    (Returned (fst r), {| base := base s; query_executor := snd r |}).

Definition generate : M t Chunk :=
  block <- executor_getTotals ;;
  if Block_bool block then
    let num_rows := Block_rows block in
    call (Chunk_make (Block_getColumns block) num_rows)
  else
    ret Chunk_empty.

(** The methods inherited from [ISource], and a run of the pipeline. *)
Definition tryGenerate : M t (option Chunk) :=
  ISourceBase.default_tryGenerate generate.

Definition work : M t unit := ISourceBase.work base set_base tryGenerate.

Definition prepare : M t Status := ISourceBase.inherited_prepare base set_base.

Definition run (fuel : nat) (s : t) : RunResult * t :=
  Pipeline.drive prepare work (fun s => output (base s))
    (fun p s => set_base (set_output p (base s)) s) fuel s.

(** The chunks the source put on its output, oldest first. *)
Definition emitted (s : t) : list Chunk := pushed (output (base s)).

End WithExecutor.

Arguments t : clear implicits.

End RemoteTotalsSource.

Module RemoteExtremesSource.
Section WithExecutor.

Context {H RC : Type} `{RemoteQueryExecutor H RC}.

Record t : Type := {
  base : ISource;
  query_executor : H
}.

Definition set_base (b : ISource) (s : t) : t :=
  {| base := b; query_executor := query_executor s |}.

Definition create (executor : H) : t :=
  {| base := ISource_create (getHeader executor); query_executor := executor |}.

Local Open Scope method_scope.

Definition executor_getExtremes : M t Block :=
  fun s =>
    let r := getExtremes (query_executor s) in
    (Returned (fst r), {| base := base s; query_executor := snd r |}).

Definition generate : M t Chunk :=
  block <- executor_getExtremes ;;
  if Block_bool block then
    let num_rows := Block_rows block in
    call (Chunk_make (Block_getColumns block) num_rows)
  else
    ret Chunk_empty.

Definition tryGenerate : M t (option Chunk) :=
  ISourceBase.default_tryGenerate generate.

Definition work : M t unit := ISourceBase.work base set_base tryGenerate.

Definition prepare : M t Status := ISourceBase.inherited_prepare base set_base.

Definition run (fuel : nat) (s : t) : RunResult * t :=
  Pipeline.drive prepare work (fun s => output (base s))
    (fun p s => set_base (set_output p (base s)) s) fuel s.

Definition emitted (s : t) : list Chunk := pushed (output (base s)).

End WithExecutor.

Arguments t : clear implicits.

End RemoteExtremesSource.

(** ** Two executors for scenarios *)

(** An executor that records the calls made on it, oldest first, and whose
    answers are given as functions of the calls made before: any
    deterministic executor, as one source sees it. *)
Module Recorder.

Inductive Call : Type :=
| call_setProgressCallback
| call_setProfileInfoCallback
| call_sendQuery
| call_read
| call_readBlock
| call_finish
| call_cancel
| call_getTotals
| call_getExtremes.

Definition Call_eq_dec (a b : Call) : {a = b} + {a <> b}.
Proof. decide equality. Defined.

Record t : Type := {
  calls : list Call;
  the_header : Block;
  on_read : list Call -> ReadResult;
  on_readBlock : list Call -> Block;
  on_getTotals : list Call -> Block;
  on_getExtremes : list Call -> Block
}.

Definition create (h : Block) (answer_read : list Call -> ReadResult)
    (answer_readBlock answer_getTotals answer_getExtremes : list Call -> Block) : t :=
  {| calls := []; the_header := h; on_read := answer_read;
     on_readBlock := answer_readBlock; on_getTotals := answer_getTotals;
     on_getExtremes := answer_getExtremes |}.

Definition record (c : Call) (r : t) : t :=
  {| calls := calls r ++ [c]; the_header := the_header r;
     on_read := on_read r; on_readBlock := on_readBlock r;
     on_getTotals := on_getTotals r; on_getExtremes := on_getExtremes r |}.

Definition count (c : Call) (r : t) : nat := count_occ Call_eq_dec (calls r) c.

(** The calls that register the callbacks and submit the query. *)
Definition is_submission (c : Call) : bool :=
  match c with
  | call_setProgressCallback | call_setProfileInfoCallback | call_sendQuery => true
  | _ => false
  end.

Definition submissions (r : t) : list Call := filter is_submission (calls r).

#[global] Instance executor : RemoteQueryExecutor t unit := {
  null_read_context := tt;
  getHeader := the_header;
  setProgressCallback := record call_setProgressCallback;
  setProfileInfoCallback := record call_setProfileInfoCallback;
  sendQuery := record call_sendQuery;
  read := fun r rc => (on_read r (calls r), (record call_read r, rc));
  readBlock := fun r => (on_readBlock r (calls r), record call_readBlock r);
  finish := fun r rc => (record call_finish r, rc);
  cancel := fun r rc => (record call_cancel r, rc);
  getTotals := fun r => (on_getTotals r (calls r), record call_getTotals r);
  getExtremes := fun r => (on_getExtremes r (calls r), record call_getExtremes r)
}.

(** Answers read off a script: the [n]-th call of a kind gets the [n]-th
    block of the script, and an empty block after the script's end. *)
Definition scripted (c : Call) (script : list Block) : list Call -> Block :=
  fun before => nth (count_occ Call_eq_dec before c) script Block_empty.

End Recorder.

(** Modelled from the spec: the session of a remote execution handle
    (section 3): not sent, then sent and streaming, then finished or
    cancelled, monotonically; once cancelled or finished no block is read.
    [finish] and [cancel] are idempotent. *)
Module Session.

Inductive Phase : Type := NotSent | Streaming | SessionFinished | Cancelled.

Record t : Type := {
  phase : Phase;
  session_header : Block;
  remaining : list Block;
  totals : Block;
  extremes : Block
}.

Definition set_phase (p : Phase) (s : t) : t :=
  {| phase := p; session_header := session_header s;
     remaining := remaining s; totals := totals s; extremes := extremes s |}.

Definition take (s : t) : Block * t :=
  match phase s, remaining s with
  | Streaming, b :: rest =>
      (b, {| phase := Streaming; session_header := session_header s;
             remaining := rest; totals := totals s; extremes := extremes s |})
  | _, _ => (Block_empty, s)
  end.

#[global] Instance executor : RemoteQueryExecutor t unit := {
  null_read_context := tt;
  getHeader := session_header;
  setProgressCallback := fun s => s;
  setProfileInfoCallback := fun s => s;
  sendQuery := fun s =>
    match phase s with NotSent => set_phase Streaming s | _ => s end;
  read := fun s rc => (Data (fst (take s)), (snd (take s), rc));
  readBlock := take;
  finish := fun s rc =>
    (match phase s with Cancelled => s | _ => set_phase SessionFinished s end, rc);
  cancel := fun s rc =>
    (match phase s with SessionFinished => s | _ => set_phase Cancelled s end, rc);
  getTotals := fun s =>
    (totals s,
     {| phase := phase s; session_header := session_header s;
        remaining := remaining s; totals := Block_empty; extremes := extremes s |});
  getExtremes := fun s =>
    (extremes s,
     {| phase := phase s; session_header := session_header s;
        remaining := remaining s; totals := totals s; extremes := Block_empty |})
}.

End Session.

(** Blocks for scenarios: one UInt64 column of [n] rows. *)
Definition block_of_rows (n : nat) : Block :=
  {| data := [ {| column := repeat 0%Z n; type := DataTypeOrdinary "UInt64";
                  name := "number" |} ];
     info := BlockInfo_default |}.

(** ** What the statements speak of *)

Section Observations.

Context {H RC : Type} `{RemoteQueryExecutor H RC}.

Import RemoteSource.

Local Abbreviation source := (RemoteSource.t H RC).

(** The state of the object when [tryGenerate] reads from the executor,
    and what the executor then answers. *)
Definition at_read (s : source) : source := snd (send_query_once s).

Definition read_answer (s : source) : ReadResult * (H * RC) :=
  read (query_executor (at_read s)) (read_context (at_read s)).

Definition readBlock_answer (s : source) : Block * H :=
  readBlock (query_executor (at_read s)).

(** The object after the executor's answer to [read] has been taken. *)
Definition after_read (s : source) : source :=
  set_session (snd (read_answer s)) (at_read s).

(** The main output port finished, nothing else touched. *)
Definition with_output_finished (s : source) : source :=
  set_base (set_output (OutputPort.finish (output (base s))) (base s)) s.

Definition empty_packet_error : Exception :=
  LOGICAL_ERROR "Got an empty packet from the RemoteQueryExecutor. This is a bug".

(** The chunks pushed so far on the dependency port, and whether the port
    is connected, not finished and able to take a chunk. *)
Definition dependency_pushed (s : source) : list Chunk :=
  match dependency_port s with
  | Some p => pushed p
  | None => []
  end.

Definition dependency_accepts (s : source) : bool :=
  match dependency_port s with
  | Some p => negb (OutputPort.isFinished p) && OutputPort.canPush p
  | None => false
  end.

(** Every column of the block has the number of rows of the first one:
    the [Chunk] constructor accepts the block's columns. *)
Definition Block_consistent (block : Block) : bool :=
  Chunk_checkNumRowsIsConsistent
    (Chunk_init (Block_getColumns block) (Block_rows block)).

(** The block that a call of [tryGenerate] in state [s] gets from the
    executor, if it gets one. *)
Definition source_block (s : source) : option Block :=
  if async_read s then
    match fst (read_answer s) with
    | Data block => Some block
    | _ => None
    end
  else Some (fst (readBlock_answer s)).

Definition info_of_block (block : Block) : AggregatedChunkInfo :=
  {| agg_is_overflows := is_overflows (info block);
     agg_bucket_num := bucket_num (info block) |}.

Definition has_aggregate_function_column (h : Block) : bool :=
  existsb is_DataTypeAggregateFunction (Block_getDataTypes h).

(** Whether a chunk carries aggregation info, compared with a flag. *)
Definition carries_info_as (flag : bool) (c : Chunk) : bool :=
  Bool.eqb (match chunk_info c with Some _ => true | None => false end) flag.

(** A payload chunk, with rows or columns, that carries aggregation info
    as the flag says. *)
Definition payload_as (flag : bool) (c : Chunk) : Prop :=
  carries_info_as flag c = true /\ Chunk_bool c = true.

(** In a pipeline: every chunk put on the main output, and the chunk
    waiting to be pushed, is such a payload chunk. *)
Definition output_info_as (flag : bool) (s : source) : Prop :=
  Forall (payload_as flag) (pushed (output (base s)))
  /\ (has_input (base s) = true -> payload_as flag (current_chunk (base s))).

End Observations.

Section RecordedCalls.

Import RemoteSource.

Local Abbreviation source := (RemoteSource.t Recorder.t unit).

(** What the first call of [tryGenerate] does on the executor before it
    reads. *)
Definition registration : list Recorder.Call :=
  [Recorder.call_setProgressCallback; Recorder.call_setProfileInfoCallback;
   Recorder.call_sendQuery].

(** The registrations and submissions recorded so far. *)
Definition submitted (s : source) : list Recorder.Call :=
  Recorder.submissions (query_executor s).

(** Whether event [e] in state [s] is a call of [tryGenerate] that is not
    cancelled, and whether it is the first such call. *)
Definition generates (e : Event) (s : source) : bool :=
  match e with
  | CallTryGenerate => negb (was_query_canceled s)
  | _ => false
  end.

Definition generates_first (e : Event) (s : source) : bool :=
  generates e s && negb (was_query_sent s).

End RecordedCalls.

Section SideChannelStates.

Context {H : Type}.

(** A source that waits to be asked: not finished, its port open, no
    chunk waiting to be pushed. *)
Definition totals_idle (s : RemoteTotalsSource.t H) : Prop :=
  finished (RemoteTotalsSource.base s) = false
  /\ is_finished (output (RemoteTotalsSource.base s)) = false
  /\ has_input (RemoteTotalsSource.base s) = false.

Definition extremes_idle (s : RemoteExtremesSource.t H) : Prop :=
  finished (RemoteExtremesSource.base s) = false
  /\ is_finished (output (RemoteExtremesSource.base s)) = false
  /\ has_input (RemoteExtremesSource.base s) = false.

End SideChannelStates.

(** ** Concrete sources *)

Module BlockingStream.

Import RemoteSource.

(** The executor's [readBlock] gives a block of 10 rows, a block of 5 rows
    and then an empty block; the source reads in blocking mode and was not
    asked for aggregation info. *)
Definition executor : Recorder.t :=
  Recorder.create (block_of_rows 0) (fun _ => Nothing)
    (Recorder.scripted Recorder.call_readBlock [block_of_rows 10; block_of_rows 5])
    (fun _ => Block_empty) (fun _ => Block_empty).

Definition source : RemoteSource.t Recorder.t unit :=
  RemoteSource.create executor false false 0%N.

Definition finish_calls (s : RemoteSource.t Recorder.t unit) : nat :=
  Recorder.count Recorder.call_finish (query_executor s).

End BlockingStream.

Module Examples.

Import RemoteSource.

(** A block with an aggregate-function column, of bucket 5, overflowing. *)
Definition aggregate_block : Block :=
  {| data := [ {| column := [1; 2; 3]%Z;
                  type := DataTypeAggregateFunction "sum";
                  name := "s" |} ];
     info := {| is_overflows := true; bucket_num := 5%Z |} |}.

(** A session with two blocks to stream, totals and extremes. *)
Definition session : Session.t :=
  {| Session.phase := Session.NotSent;
     Session.session_header := block_of_rows 0;
     Session.remaining := [block_of_rows 10; block_of_rows 5];
     Session.totals := block_of_rows 1;
     Session.extremes := block_of_rows 2 |}.

Definition aggregate_session : Session.t :=
  {| Session.phase := Session.NotSent;
     Session.session_header := aggregate_block;
     Session.remaining := [aggregate_block];
     Session.totals := Block_empty;
     Session.extremes := Block_empty |}.

(** Recording executors whose [read] always gives the same answer. *)
Definition answering (r : ReadResult) : Recorder.t :=
  Recorder.create (block_of_rows 0) (fun _ => r) (fun _ => Block_empty)
    (fun _ => Block_empty) (fun _ => Block_empty).

Definition async_source (r : ReadResult) : RemoteSource.t Recorder.t unit :=
  create (answering r) false true 0%N.

(** An asynchronous source parked on descriptor 7, then cancelled. *)
Definition parked : RemoteSource.t Recorder.t unit :=
  after ISourceBase.prepare CallTryGenerate (async_source (FileDescriptor 7)).

Definition parked_cancelled : RemoteSource.t Recorder.t unit :=
  after ISourceBase.prepare CallOnCancel parked.

(** A blocking source connected to the scheduler, whose dependency port
    is asked for data while the main output is not. *)
Definition coordinated : RemoteSource.t Session.t unit :=
  after ISourceBase.prepare (PortsChanged (fun p => p) OutputPort.setNeeded)
    (connectToScheduler (create session false false 0%N)).

(** A source connected to the scheduler whose main output the consumer
    has finished. *)
Definition closed_by_consumer : RemoteSource.t Session.t unit :=
  after ISourceBase.prepare (PortsChanged OutputPort.finish (fun p => p))
    (connectToScheduler (create session false false 0%N)).

(** An executor with two totals blocks and two extremes blocks. *)
Definition two_totals : Recorder.t :=
  Recorder.create (block_of_rows 0) (fun _ => Nothing) (fun _ => Block_empty)
    (Recorder.scripted Recorder.call_getTotals [block_of_rows 1; block_of_rows 4])
    (Recorder.scripted Recorder.call_getExtremes [block_of_rows 2; block_of_rows 2]).



(** A blocking source on a session that has nothing left to stream. *)
Definition exhausted : RemoteSource.t Session.t unit :=
  create
    {| Session.phase := Session.NotSent;
       Session.session_header := block_of_rows 0;
       Session.remaining := [];
       Session.totals := Block_empty;
       Session.extremes := Block_empty |}
    false false 0%N.

End Examples.

(** ** Storage limits *)

Module StorageLimits.
Section Limits.

(** [StreamLocalLimits] and [SizeLimits] ([QueryPipeline/StreamLocalLimits.h]
    and [QueryPipeline/SizeLimits.h]) are not among the sources: the two
    types are parameters, with the value-initialised [SizeLimits{}]. *)
Context {StreamLocalLimits SizeLimits : Type}.
Variable SizeLimits_default : SizeLimits.

Record StorageLimits : Type := {
  local_limits : StreamLocalLimits;
  leaf_limits : SizeLimits
}.

Definition StorageLimitsList : Type := list StorageLimits.

(** [RemoteSource::setStorageLimits]: the list that becomes the member
    [storage_limits], built by one [emplace_back] per element of the
    argument. *)
Definition setStorageLimits (storage_limits_ : StorageLimitsList) : StorageLimitsList :=
  fold_left
    (fun list_ value =>
       list_ ++ [ {| local_limits := local_limits value;
                     leaf_limits := SizeLimits_default |} ])
    storage_limits_ [].

End Limits.

Arguments StorageLimits : clear implicits.
Arguments StorageLimitsList : clear implicits.

End StorageLimits.

(** ** More of what the statements speak of *)

Section MoreObservations.

Context {H RC : Type} `{RemoteQueryExecutor H RC}.

Import RemoteSource.

Local Abbreviation source := (RemoteSource.t H RC).

(** The events by which the scheduler polls a source or its neighbours
    change its ports: no method other than [prepare] is called. *)
Definition is_poll (e : Event) : bool :=
  match e with
  | CallPrepare | PortsChanged _ _ => true
  | _ => false
  end.

(** The calls of the source's methods, as opposed to changes of its ports
    made by its neighbours. *)
Definition is_method_call (e : Event) : bool :=
  match e with
  | PortsChanged _ _ => false
  | _ => true
  end.

(** The executor and the read context after [tryGenerate] has read. *)
Definition session_after_read (s : source) : H * RC :=
  if async_read s then snd (read_answer s)
  else (snd (readBlock_answer s), read_context (at_read s)).

(** The chunk [tryGenerate] makes of a block whose columns all have the
    block's number of rows. *)
Definition chunk_of_block (add_info : bool) (block : Block) : Chunk :=
  let chunk := Chunk_init (Block_getColumns block) (Block_rows block) in
  if add_info then Chunk_setChunkInfo (info_of_block block) chunk else chunk.

(** The blocks of [n] calls of [readBlock], and the executor after them. *)
Fixpoint read_blocks (n : nat) (h : H) : list Block * H :=
  match n with
  | O => ([], h)
  | S n' =>
      let r := readBlock h in
      let rest := read_blocks n' (snd r) in
      (fst r :: fst rest, snd rest)
  end.

(** Likewise for [getTotals] and [getExtremes]. *)
Fixpoint totals_blocks (n : nat) (h : H) : list Block * H :=
  match n with
  | O => ([], h)
  | S n' =>
      let r := getTotals h in
      let rest := totals_blocks n' (snd r) in
      (fst r :: fst rest, snd rest)
  end.

Fixpoint extremes_blocks (n : nat) (h : H) : list Block * H :=
  match n with
  | O => ([], h)
  | S n' =>
      let r := getExtremes h in
      let rest := extremes_blocks n' (snd r) in
      (fst r :: fst rest, snd rest)
  end.

(** The dependency port, if connected, is finished; and: it cannot take
    a chunk. *)
Definition dependency_closed (s : source) : Prop :=
  match dependency_port s with
  | Some p => OutputPort.isFinished p = true
  | None => True
  end.

Definition dependency_blocked (s : source) : Prop :=
  match dependency_port s with
  | Some p => OutputPort.canPush p = false
  | None => True
  end.

(** The executor once the callbacks are registered and the query sent. *)
Definition submitted_executor (h : H) : H :=
  sendQuery (setProfileInfoCallback (setProgressCallback h)).

(** A source in a pipeline that waits to be asked for the next block in
    blocking mode. *)
Definition streaming (s : source) : Prop :=
  was_query_canceled s = false
  /\ is_async_state s = false
  /\ async_read s = false
  /\ dependency_port s = None
  /\ finished (base s) = false
  /\ is_finished (output (base s)) = false
  /\ has_input (base s) = false.

(** A source in a pipeline that waits to be asked for the next answer in
    asynchronous mode, and is not parked. *)
Definition polling (s : source) : Prop :=
  was_query_canceled s = false
  /\ is_async_state s = false
  /\ async_read s = true
  /\ finished (base s) = false
  /\ is_finished (output (base s)) = false
  /\ has_input (base s) = false.

End MoreObservations.

Section MoreRecordedCalls.

(** The calls recorded by the executor of a source. *)
Definition recorded (s : RemoteSource.t Recorder.t unit) : list Recorder.Call :=
  Recorder.calls (RemoteSource.query_executor s).

(** The calls that shut the executor down. *)
Definition is_shutdown (c : Recorder.Call) : bool :=
  match c with
  | Recorder.call_finish | Recorder.call_cancel => true
  | _ => false
  end.

(** The read of the other mode: [readBlock] for a source that reads
    asynchronously, [read] for one that blocks. *)
Definition other_mode_read (async : bool) : Recorder.Call :=
  if async then Recorder.call_readBlock else Recorder.call_read.

Definition is_call (c d : Recorder.Call) : bool :=
  if Recorder.Call_eq_dec c d then true else false.

End MoreRecordedCalls.

(** * Properties *)

(** Unfolding of the monad's operations and of the calls on the executor. *)
Ltac unfold_method :=
  unfold RemoteSource.prepare, RemoteSource.tryGenerate, RemoteSource.onCancel,
    RemoteSource.onUpdatePorts, RemoteSource.send_query_once,
    RemoteSource.wrap_block, RemoteSource.base_prepare,
    RemoteSource.finish_output, RemoteSource.executor_finish,
    RemoteSource.executor_cancel, RemoteSource.executor_read,
    RemoteSource.executor_readBlock, RemoteSource.on_executor,
    when, bind, gets, modify, ret, throw, call, Chunk_make in *.

(** ** One step of the pipeline driver *)

Lemma drive_S {St : Type} (prepare : M St Status) (work : M St unit)
    (get_output : St -> Port) (put_output : Port -> St -> St) (n : nat) (s : St) :
  Pipeline.drive prepare work get_output put_output (S n) s
  = match prepare (Pipeline.consume get_output put_output s) with
    | (Thrown e, s') => (Faulted e, s')
    | (Returned Finished, s') => (Done, s')
    | (Returned Async, s') => (Suspended, s')
    | (Returned NotReady, s') => (Stalled, s')
    | (Returned PortFull, s') =>
        Pipeline.drive prepare work get_output put_output n s'
    | (Returned Ready, s') =>
        match work s' with
        | (Returned _, s'') =>
            Pipeline.drive prepare work get_output put_output n s''
        | (Thrown e, s'') => (Faulted e, s'')
        end
    end.
Proof. reflexivity. Qed.

Section RemoteSourceProperties.

Context {H RC : Type} `{RemoteQueryExecutor H RC}.
Variable ISource_prepare : ISource -> Status * ISource.

Import RemoteSource.

Local Abbreviation source := (RemoteSource.t H RC).
Local Abbreviation prepare := (RemoteSource.prepare ISource_prepare).
Local Abbreviation after := (RemoteSource.after ISource_prepare).
Local Abbreviation after_all := (RemoteSource.after_all ISource_prepare).

(** *** Cancellation is sticky *)

Lemma tryGenerate_canceled (s : source) :
  was_query_canceled s = true -> tryGenerate s = (Returned None, s).
Proof. intros Hc. unfold_method. rewrite Hc. reflexivity. Qed.

Lemma prepare_canceled (s : source) :
  was_query_canceled s = true ->
  prepare s = (Returned Finished, with_output_finished s).
Proof. intros Hc. unfold_method. rewrite Hc. reflexivity. Qed.

Lemma canceled_after (e : Event) (s : source) :
  was_query_canceled s = true -> was_query_canceled (after e s) = true.
Proof.
  intros Hc. destruct e; cbn [RemoteSource.after].
  - rewrite prepare_canceled by assumption. exact Hc.
  - rewrite tryGenerate_canceled by assumption. exact Hc.
  - reflexivity.
  - unfold_method. cbn. destruct (OutputPort.isFinished _); cbn; auto.
  - exact Hc.
Qed.

Lemma canceled_after_all (es : list Event) (s : source) :
  was_query_canceled s = true -> was_query_canceled (after_all es s) = true.
Proof.
  revert s. induction es as [| e es IH]; intros s Hc; cbn.
  - exact Hc.
  - apply IH. now apply canceled_after.
Qed.

(** C1. Once cancellation has been observed ([was_query_canceled] is
    set), then whatever happens to the source afterwards, a call of
    [prepare] finishes the main output port and returns [Finished] at
    once; it does not return [Async], also when [is_async_state] is
    set. *)
Theorem prepare_after_cancel_is_finished (s : source) (es : list Event) :
  was_query_canceled s = true ->
  prepare (after_all es s)
    = (Returned Finished, with_output_finished (after_all es s))
  /\ OutputPort.isFinished (output (base (snd (prepare (after_all es s))))) = true
  /\ fst (prepare (after_all es s)) <> Returned Async.
Proof.
  intros Hc.
  pose proof (canceled_after_all es s Hc) as Hc'.
  rewrite (prepare_canceled _ Hc').
  repeat split; try reflexivity. cbn. discriminate.
Qed.

(** C10. On the early cancellation path [prepare] changes the main
    output port only: the dependency port, the executor and the read
    context (so no [finish] is called) and [is_async_state] are as
    before.  The executor is shut down by [onCancel] (which calls
    [cancel]) and by [onUpdatePorts] (which calls [finish]), and only
    these two set [was_query_canceled]. *)
Theorem prepare_canceled_frame (s : source) :
  was_query_canceled s = true ->
  let s' := snd (prepare s) in
  (s' = with_output_finished s
   /\ base s' = set_output (OutputPort.finish (output (base s))) (base s)
   /\ dependency_port s' = dependency_port s
   /\ query_executor s' = query_executor s
   /\ read_context s' = read_context s
   /\ is_async_state s' = is_async_state s)
  /\ (forall s0 : source,
        onCancel s0
        = (Returned tt,
           set_session (cancel (query_executor s0) (read_context s0))
             (set_was_query_canceled true s0)))
  /\ (forall s0 : source,
        OutputPort.isFinished (output (base s0)) = true ->
        onUpdatePorts s0
        = (Returned tt,
           set_session (finish (query_executor s0) (read_context s0))
             (set_was_query_canceled true s0)))
  /\ (forall (e : Event) (s0 : source),
        was_query_canceled s0 = false ->
        was_query_canceled (after e s0) = true ->
        e = CallOnCancel \/ e = CallOnUpdatePorts).
Proof.
  intros Hc s'. subst s'. rewrite (prepare_canceled _ Hc). cbn [snd].
  split; [repeat split |]. split; [reflexivity |]. split.
  - intros s0 Hf. unfold_method. rewrite Hf. reflexivity.
  - intros e s0 Hn Hy. destruct e; auto; exfalso; cbn [RemoteSource.after] in Hy.
    + revert Hy. unfold_method. rewrite Hn.
      destruct (is_async_state s0); cbn.
      * congruence.
      * destruct (Status_eqb _ Finished); cbn.
        -- destruct (dependency_port s0); cbn; congruence.
        -- destruct (Status_eqb _ PortFull); cbn;
             [destruct (dependency_port s0) as [p |]; cbn;
                [destruct (negb _ && _); cbn |] |]; congruence.
    + revert Hy. unfold_method. rewrite Hn. cbn.
      destruct (was_query_sent s0); cbn;
        (destruct (async_read s0); cbn;
         [ match goal with
           | |- context [read ?h ?c] => destruct (read h c) as [[| d | | b] [h' c']]
           end; cbn; try congruence
         | match goal with
           | |- context [readBlock ?h] => destruct (readBlock h) as [b h']
           end; cbn ]);
        (repeat match goal with
                | |- context [if ?x then _ else _] => destruct x eqn:?; cbn
                end; congruence).
    + cbn in Hy. congruence.
Qed.

(** *** The asynchronous read *)

Lemma at_read_flags (s : source) :
  was_query_canceled (at_read s) = was_query_canceled s
  /\ async_read (at_read s) = async_read s
  /\ add_aggregation_info (at_read s) = add_aggregation_info s
  /\ was_query_sent (at_read s) = true.
Proof.
  unfold at_read. unfold_method. cbn.
  destruct (was_query_sent s) eqn:Hs; cbn; auto.
Qed.

Lemma tryGenerate_async (s : source) :
  was_query_canceled s = false ->
  async_read s = true ->
  tryGenerate s
  = match fst (read_answer s) with
    | Nothing => (Thrown empty_packet_error, after_read s)
    | FileDescriptor d =>
        (Returned (Some Chunk_empty),
         set_is_async_state true (set_fd d (after_read s)))
    | ParallelReplicasToken =>
        (Returned (Some Chunk_empty), set_is_async_state false (after_read s))
    | Data block => wrap_block block (set_is_async_state false (after_read s))
    end.
Proof.
  intros Hc Ha. unfold after_read, read_answer, at_read.
  unfold tryGenerate, bind at 1, gets at 1. rewrite Hc.
  unfold bind at 1.
  destruct (send_query_once s) as [[[] | e] s1] eqn:Hs1.
  - assert (Ha1 : async_read s1 = true).
    { pose proof (at_read_flags s) as Hf. unfold at_read in Hf.
      rewrite Hs1 in Hf. cbn in Hf. destruct Hf as (_ & Hf & _). congruence. }
    unfold bind, gets, executor_read. rewrite Ha1. cbn.
    destruct (read (query_executor s1) (read_context s1)) as [[| d | | b] [h c]];
      reflexivity.
  - exfalso. revert Hs1. unfold_method. destruct (was_query_sent s); cbn; congruence.
Qed.

Lemma tryGenerate_blocking (s : source) :
  was_query_canceled s = false ->
  async_read s = false ->
  tryGenerate s
  = wrap_block (fst (readBlock_answer s))
      (set_session (snd (readBlock_answer s), read_context (at_read s)) (at_read s)).
Proof.
  intros Hc Ha. unfold readBlock_answer, at_read.
  unfold tryGenerate, bind at 1, gets at 1. rewrite Hc.
  unfold bind at 1.
  destruct (send_query_once s) as [[[] | e] s1] eqn:Hs1.
  - assert (Ha1 : async_read s1 = false).
    { pose proof (at_read_flags s) as Hf. unfold at_read in Hf.
      rewrite Hs1 in Hf. cbn in Hf. destruct Hf as (_ & Hf & _). congruence. }
    unfold bind, gets, executor_readBlock. rewrite Ha1. cbn. reflexivity.
  - exfalso. revert Hs1. unfold_method. destruct (was_query_sent s); cbn; congruence.
Qed.

(** What [tryGenerate] does with the block it has read: the end of the
    stream for a block without columns, the chunk of the block when the
    [Chunk] constructor accepts its columns, and the constructor's
    exception otherwise. *)
Lemma wrap_block_outcome (block : Block) (s : source) :
  wrap_block block s
  = if negb (Block_bool block) then
      (Returned None, set_session (finish (query_executor s) (read_context s)) s)
    else if Block_consistent block then
      (Returned (Some (chunk_of_block (add_aggregation_info s) block)), s)
    else (Thrown invalid_rows_error, s).
Proof.
  unfold wrap_block, Block_consistent, chunk_of_block, Chunk_make, bind, call,
    gets, ret, modify, executor_finish.
  destruct (Block_bool block); cbn [negb]; [| reflexivity].
  destruct (Chunk_checkNumRowsIsConsistent _); [| reflexivity].
  destruct (add_aggregation_info s); reflexivity.
Qed.

Lemma logic_errors_differ : invalid_rows_error <> empty_packet_error.
Proof. discriminate. Qed.

(** C2. In asynchronous mode, when the executor's [read] answers
    [Nothing], [tryGenerate] throws LOGICAL_ERROR after that one read: it
    neither reads again nor returns a value.  If the executor never
    answers [Nothing], [tryGenerate] never throws that error: the only
    exception left is the one of the [Chunk] constructor, on a block whose
    columns differ in size. *)
Theorem tryGenerate_nothing_is_logical_error :
  (forall s : source,
     was_query_canceled s = false ->
     async_read s = true ->
     fst (read_answer s) = Nothing ->
     tryGenerate s = (Thrown empty_packet_error, after_read s))
  /\ ((forall (h : H) (c : RC), fst (read h c) <> Nothing) ->
      forall s : source,
        fst (tryGenerate s) <> Thrown empty_packet_error
        /\ (forall e : Exception,
              fst (tryGenerate s) = Thrown e ->
              e = invalid_rows_error
              /\ exists block : Block,
                   source_block s = Some block
                   /\ Block_bool block = true
                   /\ Block_consistent block = false)).
Proof.
  split.
  - intros s Hc Ha Hn. rewrite (tryGenerate_async s Hc Ha), Hn. reflexivity.
  - intros Hnever s.
    assert (Hwrap : forall (block : Block) (s0 : source) (e : Exception),
              fst (wrap_block block s0) = Thrown e ->
              e = invalid_rows_error
              /\ Block_bool block = true /\ Block_consistent block = false).
    { intros block s0 e. rewrite wrap_block_outcome.
      destruct (Block_bool block); cbn [negb fst]; [| intros Hx; discriminate Hx].
      destruct (Block_consistent block); cbn [fst]; [intros Hx; discriminate Hx |].
      intros Heq. injection Heq as <-. auto. }
    assert (Hall : forall e : Exception,
              fst (tryGenerate s) = Thrown e ->
              e = invalid_rows_error
              /\ exists block : Block,
                   source_block s = Some block
                   /\ Block_bool block = true
                   /\ Block_consistent block = false).
    { intros e. unfold source_block.
      destruct (was_query_canceled s) eqn:Hc.
      { rewrite (tryGenerate_canceled s Hc). discriminate. }
      destruct (async_read s) eqn:Ha.
      - rewrite (tryGenerate_async s Hc Ha).
        pose proof (Hnever (query_executor (at_read s)) (read_context (at_read s)))
          as Hn.
        fold (read_answer s) in Hn.
        destruct (fst (read_answer s)) as [| d | | b]; try discriminate.
        + congruence.
        + intros He. apply Hwrap in He. destruct He as (-> & Hb & Hr). eauto.
      - rewrite (tryGenerate_blocking s Hc Ha).
        intros He. apply Hwrap in He. destruct He as (-> & Hb & Hr). eauto. }
    split; [| exact Hall].
    intros He. apply Hall in He. destruct He as (He & _).
    symmetry in He. exact (logic_errors_differ He).
Qed.

(** C5. In asynchronous mode, on the answers other than [Nothing]:
    a file descriptor is stored in [fd], the object enters the async state
    and an empty chunk is returned, and the next [prepare] reports [Async];
    a parallel-replicas token clears the async state and returns an empty
    chunk, which is not a payload chunk; a data block clears the async
    state and goes on to be wrapped: a block without columns ends the
    stream after a call of [finish], a block with columns gives the chunk
    of its columns and rows (with aggregation info if enabled), unless
    the [Chunk] constructor refuses the columns. *)
Theorem tryGenerate_async_outcomes (s : source) :
  was_query_canceled s = false ->
  async_read s = true ->
  (forall d : Z,
     fst (read_answer s) = FileDescriptor d ->
     tryGenerate s
     = (Returned (Some Chunk_empty),
        set_is_async_state true (set_fd d (after_read s)))
     /\ fd (snd (tryGenerate s)) = d
     /\ is_async_state (snd (tryGenerate s)) = true
     /\ prepare (snd (tryGenerate s)) = (Returned Async, snd (tryGenerate s)))
  /\ (fst (read_answer s) = ParallelReplicasToken ->
      tryGenerate s
      = (Returned (Some Chunk_empty), set_is_async_state false (after_read s))
      /\ Chunk_bool Chunk_empty = false
      /\ is_async_state (snd (tryGenerate s)) = false)
  /\ (forall block : Block,
        fst (read_answer s) = Data block ->
        let s1 := set_is_async_state false (after_read s) in
        tryGenerate s = wrap_block block s1
        /\ tryGenerate s
           = (if negb (Block_bool block) then
                (Returned None,
                 set_session (finish (query_executor s1) (read_context s1)) s1)
              else if Block_consistent block then
                (Returned (Some (chunk_of_block (add_aggregation_info s) block)),
                 s1)
              else (Thrown invalid_rows_error, s1))
        /\ is_async_state (snd (tryGenerate s)) = false).
Proof.
  intros Hc Ha. rewrite (tryGenerate_async s Hc Ha).
  pose proof (at_read_flags s) as (Hc1 & _ & Hagg & _).
  split; [| split].
  - intros d Hr. rewrite Hr. cbn [snd]. repeat split.
    unfold_method. cbn. unfold after_read. cbn. rewrite Hc1, Hc. reflexivity.
  - intros Hr. rewrite Hr. repeat split.
  - intros b Hr s1. subst s1. rewrite Hr. split; [reflexivity |].
    rewrite wrap_block_outcome.
    assert (Hagg1 : add_aggregation_info (set_is_async_state false (after_read s))
                    = add_aggregation_info s)
      by (unfold after_read; cbn; exact Hagg).
    rewrite Hagg1. split; [reflexivity |].
    destruct (Block_bool b); cbn [negb];
      [destruct (Block_consistent b); reflexivity |].
    reflexivity.
Qed.

(** *** The two calls of [finish] at the end of a stream *)

(** [tryGenerate] calls [finish] when the block read has no columns. *)
Lemma wrap_block_end_of_stream (block : Block) (s : source) :
  Block_bool block = false ->
  wrap_block block s
  = (Returned None, set_session (finish (query_executor s) (read_context s)) s).
Proof. intros Hb. unfold_method. rewrite Hb. reflexivity. Qed.

(** [prepare] calls [finish] when the base reports [Finished]; it also
    finishes the dependency port and clears the async state. *)
Lemma prepare_base_finished (s : source) :
  was_query_canceled s = false ->
  is_async_state s = false ->
  fst (ISource_prepare (base s)) = Finished ->
  fst (prepare s) = Returned Finished
  /\ (query_executor (snd (prepare s)), read_context (snd (prepare s)))
     = finish (query_executor s) (read_context s)
  /\ dependency_port (snd (prepare s))
     = option_map OutputPort.finish (dependency_port s)
  /\ is_async_state (snd (prepare s)) = false.
Proof.
  intros Hc Ha Hb. unfold_method. rewrite Hc, Ha. cbn. rewrite Hb. cbn.
  destruct (dependency_port s) eqn:Hp; cbn; rewrite ?Hp;
    destruct (finish (query_executor s) (read_context s)); auto.
Qed.

(** *** The dependency port on [PortFull] *)

(** C6. When the base status of a [prepare] call is [PortFull]: if the
    dependency port is connected, not finished and can take a chunk, this
    call pushes exactly one empty chunk on it; otherwise it pushes
    nothing; either way [PortFull] is returned. *)
Theorem prepare_port_full_marker (s : source) :
  was_query_canceled s = false ->
  is_async_state s = false ->
  fst (ISource_prepare (base s)) = PortFull ->
  let s' := snd (prepare s) in
  fst (prepare s) = Returned PortFull
  /\ (dependency_accepts s = true ->
      (exists p, dependency_port s = Some p
                 /\ dependency_port s' = Some (OutputPort.push Chunk_empty p))
      /\ dependency_pushed s' = dependency_pushed s ++ [Chunk_empty])
  /\ (dependency_accepts s = false ->
      dependency_port s' = dependency_port s
      /\ dependency_pushed s' = dependency_pushed s).
Proof.
  intros Hc Ha Hb s'. subst s'.
  unfold dependency_accepts, dependency_pushed.
  unfold_method. rewrite Hc, Ha. cbn. rewrite Hb. cbn.
  destruct (dependency_port s) as [p |] eqn:Hp; cbn.
  - destruct (negb (OutputPort.isFinished p) && OutputPort.canPush p) eqn:Hacc;
      cbn; rewrite ?Hp; repeat split; try discriminate; eauto.
  - rewrite ?Hp. repeat split; try discriminate; auto.
Qed.

(** *** Cancelling twice *)

(** C8. If the executor's [cancel] is idempotent, a second [onCancel]
    right after the first leaves the object as the first left it, so
    [prepare], [tryGenerate] and everything that happens afterwards go the
    same way. *)
Theorem onCancel_idempotent :
  (forall (h : H) (c : RC),
     cancel (fst (cancel h c)) (snd (cancel h c)) = cancel h c) ->
  forall s : source,
    let once := snd (onCancel s) in
    let twice := snd (onCancel once) in
    twice = once
    /\ onCancel once = (Returned tt, once)
    /\ prepare twice = prepare once
    /\ tryGenerate twice = tryGenerate once
    /\ (forall es : list Event, after_all es twice = after_all es once).
Proof.
  intros Hidem s once twice.
  assert (Heq : twice = once).
  { subst twice once. unfold_method. cbn. rewrite Hidem. reflexivity. }
  split; [exact Heq |]. split.
  - rewrite <- Heq at 2. subst twice. unfold_method. reflexivity.
  - rewrite Heq. auto.
Qed.

(** *** Aggregation info *)

Lemma fold_left_set_flag (types : list DataType) (flag : bool) :
  fold_left (fun acc type_ => if is_DataTypeAggregateFunction type_ then true else acc)
    types flag
  = flag || existsb is_DataTypeAggregateFunction types.
Proof.
  revert flag. induction types as [| ty types IH]; intros flag; cbn.
  - now rewrite orb_false_r.
  - rewrite IH. destruct (is_DataTypeAggregateFunction ty), flag; reflexivity.
Qed.

Lemma create_add_aggregation_info (executor : H) (agg async : bool) (u : UUID) :
  add_aggregation_info (create executor agg async u)
  = agg || has_aggregate_function_column (getHeader executor).
Proof. cbn. apply fold_left_set_flag. Qed.

(** No method writes the members set by the constructor. *)
Lemma constants_after (e : Event) (s : source) :
  add_aggregation_info (after e s) = add_aggregation_info s
  /\ async_read (after e s) = async_read s
  /\ uuid (after e s) = uuid s.
Proof.
  destruct e; cbn [RemoteSource.after]; unfold_method;
    repeat match goal with
           | |- context [if ?b then _ else _] => destruct b eqn:?; cbn
           | |- context [match ?x with _ => _ end] => destruct x eqn:?; cbn
           end; repeat split; congruence.
Qed.

Lemma constants_after_all (es : list Event) (s : source) :
  add_aggregation_info (after_all es s) = add_aggregation_info s
  /\ async_read (after_all es s) = async_read s
  /\ uuid (after_all es s) = uuid s.
Proof.
  revert s. induction es as [| e es IH]; intros s; [cbn; auto |].
  change (after_all (e :: es) s) with (after_all es (after e s)).
  destruct (IH (after e s)) as (-> & -> & ->). apply constants_after.
Qed.

Lemma wrap_block_chunk (block : Block) (s s' : source) (c : Chunk) :
  wrap_block block s = (Returned (Some c), s') ->
  Block_bool block = true
  /\ Chunk_bool c = true
  /\ columns c = Block_getColumns block
  /\ num_rows c = Block_rows block
  /\ chunk_info c
     = if add_aggregation_info s then Some (info_of_block block) else None.
Proof.
  rewrite wrap_block_outcome.
  destruct (Block_bool block) eqn:Hb; cbn [negb]; [| discriminate].
  destruct (Block_consistent block); [| discriminate].
  intros Heq. injection Heq as <- <-.
  assert (Hcols : exists col cols, Block_getColumns block = col :: cols).
  { revert Hb. unfold Block_bool, Block_getColumns.
    destruct (data block); [discriminate |]. cbn. eauto. }
  destruct Hcols as (col & cols & Hcols).
  unfold chunk_of_block, Chunk_bool.
  destruct (add_aggregation_info s); cbn; rewrite Hcols, orb_true_r; auto.
Qed.

(** C4. For a source as constructed, in any state it can come to: a chunk
    that [tryGenerate] makes from a block carries an [AggregatedChunkInfo]
    with the block's [bucket_num] and [is_overflows] when the header has a
    column of an aggregate-function type or the caller asked for
    aggregation info, and carries none otherwise.  The only other chunk
    [tryGenerate] returns is the empty chunk of the asynchronous mode,
    which is not a payload: the producing step drops it, see
    [run_emitted_info] for the chunks that reach the output. *)
Theorem chunk_aggregation_info (executor : H) (agg async : bool) (u : UUID)
    (es : list Event) (c : Chunk) (s' : source) :
  let s := after_all es (create executor agg async u) in
  tryGenerate s = (Returned (Some c), s') ->
  (c = Chunk_empty /\ Chunk_bool c = false /\ source_block s = None)
  \/ (Chunk_bool c = true
      /\ exists block : Block,
           source_block s = Some block
           /\ Block_bool block = true
           /\ columns c = Block_getColumns block
           /\ num_rows c = Block_rows block
           /\ chunk_info c
              = if agg || has_aggregate_function_column (getHeader executor)
                then Some (info_of_block block)
                else None).
Proof.
  intros s Hgen.
  assert (Hflag : add_aggregation_info s
                  = agg || has_aggregate_function_column (getHeader executor)).
  { subst s. destruct (constants_after_all es (create executor agg async u)) as (-> & _).
    apply create_add_aggregation_info. }
  destruct (was_query_canceled s) eqn:Hc.
  { rewrite (tryGenerate_canceled s Hc) in Hgen. discriminate. }
  unfold source_block.
  destruct (async_read s) eqn:Ha.
  - rewrite (tryGenerate_async s Hc Ha) in Hgen.
    destruct (fst (read_answer s)) as [| d | | block].
    + discriminate.
    + left. injection Hgen as <- _. auto.
    + left. injection Hgen as <- _. auto.
    + right. apply wrap_block_chunk in Hgen.
      destruct Hgen as (Hb & Hcb & Hcols & Hrows & Hinfo).
      split; [exact Hcb |]. exists block. repeat split; auto.
      rewrite Hinfo. cbn. unfold after_read. cbn.
      destruct (at_read_flags s) as (_ & _ & -> & _). now rewrite Hflag.
  - rewrite (tryGenerate_blocking s Hc Ha) in Hgen.
    right. apply wrap_block_chunk in Hgen.
    destruct Hgen as (Hb & Hcb & Hcols & Hrows & Hinfo).
    split; [exact Hcb |]. exists (fst (readBlock_answer s)). repeat split; auto.
    rewrite Hinfo. cbn.
    destruct (at_read_flags s) as (_ & _ & -> & _). now rewrite Hflag.
Qed.

End RemoteSourceProperties.

(** ** Aggregation info on the chunks of a run *)

Section EmittedChunks.

Context {H RC : Type} `{RemoteQueryExecutor H RC}.

Import RemoteSource.

Local Abbreviation source := (RemoteSource.t H RC).

Lemma tryGenerate_keeps_base (s : source) :
  base (snd (tryGenerate s)) = base s
  /\ add_aggregation_info (snd (tryGenerate s)) = add_aggregation_info s.
Proof.
  unfold_method;
    repeat match goal with
           | |- context [if ?b then _ else _] => destruct b eqn:?; cbn
           | |- context [match ?x with _ => _ end] => destruct x eqn:?; cbn
           end; split; congruence.
Qed.

Lemma tryGenerate_payload_info (s s' : source) (c : Chunk) :
  tryGenerate s = (Returned (Some c), s') ->
  Chunk_bool c = true ->
  carries_info_as (add_aggregation_info s) c = true.
Proof.
  intros Hgen Hc.
  assert (Hwrap : forall (block : Block) (s0 : source),
            add_aggregation_info s0 = add_aggregation_info s ->
            wrap_block block s0 = (Returned (Some c), s') ->
            carries_info_as (add_aggregation_info s) c = true).
  { intros block s0 Hflag Hw.
    apply wrap_block_chunk in Hw. destruct Hw as (_ & _ & _ & _ & Hinfo).
    unfold carries_info_as. rewrite Hinfo, Hflag.
    destruct (add_aggregation_info s); reflexivity. }
  destruct (was_query_canceled s) eqn:Hcan.
  { rewrite (tryGenerate_canceled s Hcan) in Hgen. discriminate. }
  destruct (at_read_flags s) as (_ & _ & Hflag & _).
  destruct (async_read s) eqn:Ha.
  - rewrite (tryGenerate_async s Hcan Ha) in Hgen.
    destruct (fst (read_answer s)) as [| d | | block].
    + discriminate.
    + injection Hgen as <- _. discriminate.
    + injection Hgen as <- _. discriminate.
    + eapply Hwrap; [| exact Hgen]. exact Hflag.
  - rewrite (tryGenerate_blocking s Hcan Ha) in Hgen.
    eapply Hwrap; [| exact Hgen]. exact Hflag.
Qed.

Lemma work_keeps_output_info (flag : bool) (s : source) :
  add_aggregation_info s = flag ->
  has_input (base s) = false ->
  output_info_as flag s ->
  add_aggregation_info (snd (work s)) = flag
  /\ output_info_as flag (snd (work s)).
Proof.
  intros Hflag Hin (Hpushed & Hwaiting).
  destruct (tryGenerate_keeps_base s) as (Hbase & Hagg).
  unfold work, ISourceBase.work, output_info_as.
  destruct (tryGenerate s) as [[[c |] | e] s1] eqn:Hgen; cbn in Hbase, Hagg |- *;
    rewrite Hbase, Hagg; (split; [exact Hflag |]).
  - destruct (Chunk_bool c) eqn:Hc; cbn; (split; [exact Hpushed |]).
    + intros _. rewrite <- Hflag.
      split; [apply (tryGenerate_payload_info s s1 c Hgen Hc) | exact Hc].
    + rewrite Hin. discriminate.
  - now split.
  - now split.
Qed.

Lemma prepare_keeps_output_info (flag : bool) (s : source) :
  add_aggregation_info s = flag ->
  output_info_as flag s ->
  add_aggregation_info (snd (pipeline_prepare s)) = flag
  /\ output_info_as flag (snd (pipeline_prepare s))
  /\ (fst (pipeline_prepare s) = Returned Ready ->
      has_input (base (snd (pipeline_prepare s))) = false).
Proof.
  intros Hflag (Hpushed & Hwaiting).
  assert (Hpush : has_input (base s) = true ->
                  Forall (payload_as flag)
                    (pushed (output (base s)) ++ [current_chunk (base s)])).
  { intros Hin. apply Forall_app. split; [exact Hpushed |].
    constructor; [exact (Hwaiting Hin) | constructor]. }
  unfold pipeline_prepare, output_info_as. unfold_method.
  unfold ISourceBase.prepare.
  destruct (was_query_canceled s); cbn;
    [| destruct (is_async_state s); cbn;
       [| destruct (finished (base s)); cbn;
          [| destruct (OutputPort.isFinished (output (base s))); cbn;
             [| destruct (OutputPort.canPush (output (base s))); cbn;
                [destruct (has_input (base s)) eqn:Hin; cbn |]]]]];
    try (destruct (dependency_port s) as [p |]; cbn;
         [destruct (negb (OutputPort.isFinished p) && OutputPort.canPush p); cbn |]);
    refine (conj _ (conj (conj _ _) _));
    first [ exact Hflag
          | exact Hpushed
          | exact Hwaiting
          | exact (Hpush eq_refl)
          | exact (Hpush Hin)
          | exact (fun _ => Hin)
          | (intros Hx; discriminate Hx)
          | (rewrite Hin; intros Hx; discriminate Hx) ].
Qed.

(** X16. Every chunk that a run of the pipeline puts on the main output
    of a source as constructed carries aggregation info exactly when the
    header has an aggregate-function column or the caller asked for it,
    and is a payload chunk, with rows or columns: the empty chunks that
    [tryGenerate] returns in asynchronous mode never reach the output. *)
Lemma run_emitted_info (fuel : nat) (executor : H) (agg async : bool) (u : UUID) :
  Forall
    (fun c =>
       carries_info_as (agg || has_aggregate_function_column (getHeader executor)) c
       = true
       /\ Chunk_bool c = true)
    (emitted (snd (run fuel (create executor agg async u)))).
Proof.
  set (flag := agg || has_aggregate_function_column (getHeader executor)).
  assert (Hinv : forall (n : nat) (s : source),
            add_aggregation_info s = flag ->
            output_info_as flag s ->
            output_info_as flag (snd (run n s))).
  { induction n as [| n IH]; intros s Hflag Hout; [exact Hout |].
    unfold run in *. rewrite drive_S.
    set (s0 := Pipeline.consume _ _ s).
    assert (Hflag0 : add_aggregation_info s0 = flag) by exact Hflag.
    assert (Hout0 : output_info_as flag s0) by exact Hout.
    destruct (prepare_keeps_output_info flag s0 Hflag0 Hout0) as (Hflag1 & Hout1 & Hready).
    destruct (pipeline_prepare s0) as [[[] | e] s1]; cbn [fst snd] in *; auto.
    destruct (work_keeps_output_info flag s1 Hflag1 (Hready eq_refl) Hout1)
      as (Hflag2 & Hout2).
    destruct (work s1) as [[[] | e] s2]; cbn [fst snd] in *; auto. }
  apply (Hinv fuel (create executor agg async u)).
  - apply create_add_aggregation_info.
  - split; [constructor | discriminate].
Qed.

End EmittedChunks.

(** ** Sending the query once *)

Section SendingTheQuery.

Variable ISource_prepare : ISource -> Status * ISource.

Import RemoteSource.

Local Abbreviation source := (RemoteSource.t Recorder.t unit).
Local Abbreviation after := (RemoteSource.after ISource_prepare).
Local Abbreviation after_all := (RemoteSource.after_all ISource_prepare).

Lemma submissions_record (c : Recorder.Call) (r : Recorder.t) :
  Recorder.submissions (Recorder.record c r)
  = Recorder.submissions r ++ (if Recorder.is_submission c then [c] else []).
Proof.
  unfold Recorder.submissions. cbn. rewrite filter_app. cbn.
  destruct (Recorder.is_submission c); reflexivity.
Qed.

Lemma count_sendQuery_submissions (r : Recorder.t) :
  Recorder.count Recorder.call_sendQuery r
  = count_occ Recorder.Call_eq_dec (Recorder.submissions r) Recorder.call_sendQuery.
Proof.
  unfold Recorder.count, Recorder.submissions.
  induction (Recorder.calls r) as [| c l IH]; [reflexivity |].
  destruct c; cbn; rewrite IH; reflexivity.
Qed.

Lemma submitted_after (e : Event) (s : source) :
  submitted (after e s)
  = submitted s ++ (if generates_first e s then registration else [])
  /\ was_query_sent (after e s) = was_query_sent s || generates e s.
Proof.
  unfold submitted, generates_first, generates.
  destruct e; cbn [RemoteSource.after]; unfold_method; cbn;
    repeat match goal with
           | |- context [if ?b then _ else _] => destruct b eqn:?; cbn
           | |- context [match ?x with _ => _ end] => destruct x eqn:?; cbn
           end;
    unfold Recorder.submissions, registration; rewrite ?filter_app; cbn;
    rewrite <- ?app_assoc, ?app_nil_r, ?orb_false_r, ?orb_true_r; cbn;
    repeat match goal with
           | Hx : negb _ = false |- _ => apply negb_false_iff in Hx
           | Hx : negb _ = true |- _ => apply negb_true_iff in Hx
           end;
    split; congruence.
Qed.

Lemma submitted_invariant (es : list Event) (s : source) :
  submitted s = (if was_query_sent s then registration else []) ->
  submitted (after_all es s)
  = (if was_query_sent (after_all es s) then registration else []).
Proof.
  revert s. induction es as [| e es IH]; intros s Hs; [exact Hs |].
  change (after_all (e :: es) s) with (after_all es (after e s)).
  apply IH. destruct (submitted_after e s) as [-> ->]. rewrite Hs.
  unfold generates_first.
  destruct (was_query_sent s), (generates e s); cbn;
    rewrite ?app_nil_r; reflexivity.
Qed.

Lemma sent_after_all (es : list Event) (s : source) :
  was_query_sent s = true -> was_query_sent (after_all es s) = true.
Proof.
  revert s. induction es as [| e es IH]; intros s Hs; [exact Hs |].
  change (after_all (e :: es) s) with (after_all es (after e s)).
  apply IH. destruct (submitted_after e s) as [_ ->]. now rewrite Hs.
Qed.

(** C7. On an executor that records its calls: a call of [tryGenerate]
    registers the two callbacks and sends the query exactly when it is not
    cancelled and the query was not sent before, and no other method does;
    the query counts as sent from the first call that is not cancelled
    on.  So in every state a new source can come to, the callbacks were
    registered and the query sent once, in the first call of [tryGenerate]
    that was not cancelled, or not at all if there was no such call; the
    number of [sendQuery] calls is one or zero accordingly, and it is one
    whenever a call of [tryGenerate] that was not cancelled has been
    made, however many calls follow. *)
Theorem query_sent_once :
  (forall (e : Event) (s : source),
     submitted (after e s)
     = submitted s ++ (if generates_first e s then registration else [])
     /\ was_query_sent (after e s) = was_query_sent s || generates e s)
  /\ (forall (h : Block) (answer_read : list Recorder.Call -> ReadResult)
        (answer_readBlock answer_getTotals answer_getExtremes :
           list Recorder.Call -> Block)
        (agg async : bool) (u : UUID) (es : list Event),
        let executor :=
          Recorder.create h answer_read answer_readBlock answer_getTotals
            answer_getExtremes in
        let s := after_all es (create executor agg async u) in
        submitted s = (if was_query_sent s then registration else [])
        /\ Recorder.count Recorder.call_sendQuery (query_executor s)
           = (if was_query_sent s then 1 else 0)
        /\ Recorder.count Recorder.call_sendQuery (query_executor s) <= 1
        /\ (forall before later : list Event,
              es = before ++ CallTryGenerate :: later ->
              was_query_canceled (after_all before (create executor agg async u))
              = false ->
              submitted s = registration
              /\ Recorder.count Recorder.call_sendQuery (query_executor s) = 1)).
Proof.
  split; [exact submitted_after |].
  intros h ar ab at_ ae agg async u es executor s.
  assert (Hsent : forall before later : list Event,
            es = before ++ CallTryGenerate :: later ->
            was_query_canceled (after_all before (create executor agg async u))
            = false ->
            was_query_sent s = true).
  { intros before later -> Hc. subst s.
    unfold RemoteSource.after_all. rewrite fold_left_app.
    fold (after_all before (create executor agg async u)).
    change (fold_left (fun s e => after e s) (CallTryGenerate :: later) ?x)
      with (after_all later (after CallTryGenerate x)).
    apply sent_after_all.
    destruct (submitted_after CallTryGenerate
                (after_all before (create executor agg async u))) as [_ ->].
    cbn. rewrite Hc. apply orb_true_r. }
  assert (Hinv : submitted s = (if was_query_sent s then registration else [])).
  { subst s. apply submitted_invariant. reflexivity. }
  split; [exact Hinv |].
  assert (Hcount : Recorder.count Recorder.call_sendQuery (query_executor s)
                   = (if was_query_sent s then 1 else 0)).
  { rewrite count_sendQuery_submissions. fold (submitted s). rewrite Hinv.
    destruct (was_query_sent s); reflexivity. }
  split; [exact Hcount |]. split.
  - rewrite Hcount. destruct (was_query_sent s); auto.
  - intros before later Hes Hc.
    rewrite Hcount, Hinv, (Hsent before later Hes Hc). auto.
Qed.

End SendingTheQuery.

(** ** A blocking stream of two blocks *)

(** C3, as the code has it.  Run to the end, the source of the scenario
    emits two chunks, of 10 and of 5 rows, and then finishes its output;
    the executor's [finish] is called twice: by [tryGenerate] when it reads
    the empty block, and by [prepare] when the base reports [Finished]. *)
Theorem blocking_stream_run (k : nat) :
  let r := RemoteSource.run (7 + k) BlockingStream.source in
  fst r = Done
  /\ map num_rows (RemoteSource.emitted (snd r)) = [10%N; 5%N]
  /\ map chunk_info (RemoteSource.emitted (snd r)) = [None; None]
  /\ OutputPort.isFinished (output (RemoteSource.base (snd r))) = true
  /\ Recorder.calls (RemoteSource.query_executor (snd r))
     = [Recorder.call_setProgressCallback; Recorder.call_setProfileInfoCallback;
        Recorder.call_sendQuery; Recorder.call_readBlock;
        Recorder.call_readBlock; Recorder.call_readBlock;
        Recorder.call_finish; Recorder.call_finish]
  /\ BlockingStream.finish_calls (snd r) = 2.
Proof. vm_compute. repeat split. Qed.

(** C3 as stated fails: the run of the scenario has called [finish]
    twice when it ends, and no run of it that ends has called [finish]
    exactly once. *)
Lemma blocking_stream_finish_not_once :
  (let r := RemoteSource.run 7 BlockingStream.source in
   fst r = Done
   /\ map num_rows (RemoteSource.emitted (snd r)) = [10%N; 5%N]
   /\ BlockingStream.finish_calls (snd r) = 2)
  /\ ~ (exists fuel : nat,
         let r := RemoteSource.run fuel BlockingStream.source in
         fst r = Done
         /\ map num_rows (RemoteSource.emitted (snd r)) = [10%N; 5%N]
         /\ BlockingStream.finish_calls (snd r) = 1).
Proof.
  split; [vm_compute; repeat split |].
  intros [fuel (Hdone & _ & Hcalls)].
  do 7 (destruct fuel as [| fuel]; [vm_compute in Hdone; discriminate |]).
  vm_compute in Hcalls. discriminate.
Qed.

(** ** The totals and extremes sources are single-shot *)

Section SideChannelProperties.

Context {H RC : Type} `{RemoteQueryExecutor H RC}.

Lemma chunk_of_block_not_empty (block : Block) :
  Block_bool block = true ->
  Chunk_bool (chunk_of_block false block) = true.
Proof.
  unfold Block_bool, Chunk_bool, chunk_of_block, Block_getColumns.
  destruct (data block); [discriminate |]. intros _. cbn. apply orb_true_r.
Qed.

(** The [Chunk] constructor on the columns of a block. *)
Lemma Chunk_make_block (block : Block) :
  Chunk_make (Block_getColumns block) (Block_rows block)
  = if Block_consistent block then Returned (chunk_of_block false block)
    else Thrown invalid_rows_error.
Proof. reflexivity. Qed.


(** What the producing step does, by the block the executor gives. *)
Lemma totals_work_outcome (s : RemoteTotalsSource.t H) :
  RemoteTotalsSource.work s
  = let block := fst (getTotals (RemoteTotalsSource.query_executor s)) in
    let s1 := {| RemoteTotalsSource.base := RemoteTotalsSource.base s;
                 RemoteTotalsSource.query_executor :=
                   snd (getTotals (RemoteTotalsSource.query_executor s)) |} in
    if Block_bool block then
      if Block_consistent block then
        (Returned tt,
         RemoteTotalsSource.set_base
           (set_has_input true
              (set_current_chunk (chunk_of_block false block)
                 (RemoteTotalsSource.base s))) s1)
      else
        (Thrown invalid_rows_error,
         RemoteTotalsSource.set_base
           (set_finished true (RemoteTotalsSource.base s)) s1)
    else
      (Returned tt,
       RemoteTotalsSource.set_base
         (set_finished true (RemoteTotalsSource.base s)) s1).
Proof.
  unfold RemoteTotalsSource.work, ISourceBase.work, RemoteTotalsSource.tryGenerate,
    ISourceBase.default_tryGenerate, RemoteTotalsSource.generate,
    RemoteTotalsSource.executor_getTotals, bind, ret, call.
  cbn -[Chunk_make Chunk_bool Block_bool chunk_of_block Block_consistent].
  destruct (Block_bool (fst (getTotals (RemoteTotalsSource.query_executor s))))
    eqn:Hb; [| reflexivity].
  rewrite Chunk_make_block.
  destruct (Block_consistent
              (fst (getTotals (RemoteTotalsSource.query_executor s))));
    [| reflexivity].
  cbn -[Chunk_bool chunk_of_block]. rewrite (chunk_of_block_not_empty _ Hb).
  cbn -[chunk_of_block]. rewrite ?(chunk_of_block_not_empty _ Hb). reflexivity.
Qed.


Ltac totals_simpl :=
  cbn -[Pipeline.drive RemoteTotalsSource.work Chunk_bool Block_bool
        chunk_of_block Block_consistent].

(** The executor has a totals block: two rounds of the driver put one
    chunk on the output and leave the source waiting again. *)
Lemma totals_present_step (s : RemoteTotalsSource.t H) (n : nat) :
  totals_idle s ->
  Block_bool (fst (getTotals (RemoteTotalsSource.query_executor s))) = true ->
  Block_consistent (fst (getTotals (RemoteTotalsSource.query_executor s))) = true ->
  exists s' : RemoteTotalsSource.t H,
    RemoteTotalsSource.run (2 + n) s = RemoteTotalsSource.run n s'
    /\ totals_idle s'
    /\ RemoteTotalsSource.query_executor s'
       = snd (getTotals (RemoteTotalsSource.query_executor s))
    /\ RemoteTotalsSource.emitted s'
       = RemoteTotalsSource.emitted s
         ++ [chunk_of_block false
               (fst (getTotals (RemoteTotalsSource.query_executor s)))].
Proof.
  intros (Hf & Hp & Hi) Hb Hr.
  destruct s as [[[hd pf pn sl pu] fin inp cur] h]. cbn -[Block_consistent Block_bool] in Hf, Hp, Hi, Hb, Hr. subst.
  unfold RemoteTotalsSource.run. change (2 + n) with (S (S n)).
  rewrite drive_S.
  unfold Pipeline.consume, RemoteTotalsSource.prepare, ISourceBase.inherited_prepare.
  totals_simpl.
  rewrite totals_work_outcome. totals_simpl. rewrite Hb, Hr.
  rewrite drive_S. totals_simpl.
  eexists. split; [reflexivity |].
  unfold totals_idle, RemoteTotalsSource.emitted. cbn -[chunk_of_block]. auto.
Qed.

(** The executor has no totals block: the source finishes, and the run
    ends without a chunk. *)
Lemma totals_absent_step (s : RemoteTotalsSource.t H) (n : nat) :
  totals_idle s ->
  Block_bool (fst (getTotals (RemoteTotalsSource.query_executor s))) = false ->
  exists s' : RemoteTotalsSource.t H,
    RemoteTotalsSource.run (2 + n) s = (Done, s')
    /\ RemoteTotalsSource.emitted s' = RemoteTotalsSource.emitted s.
Proof.
  intros (Hf & Hp & Hi) Hb.
  destruct s as [[[hd pf pn sl pu] fin inp cur] h]. cbn in Hf, Hp, Hi, Hb. subst.
  unfold RemoteTotalsSource.run. change (2 + n) with (S (S n)).
  rewrite drive_S.
  unfold Pipeline.consume, RemoteTotalsSource.prepare, ISourceBase.inherited_prepare.
  totals_simpl.
  rewrite totals_work_outcome. totals_simpl. rewrite Hb.
  rewrite drive_S. totals_simpl.
  eexists. split; [reflexivity |].
  unfold RemoteTotalsSource.emitted. cbn. auto.
Qed.




Lemma extremes_work_outcome (s : RemoteExtremesSource.t H) :
  RemoteExtremesSource.work s
  = let block := fst (getExtremes (RemoteExtremesSource.query_executor s)) in
    let s1 := {| RemoteExtremesSource.base := RemoteExtremesSource.base s;
                 RemoteExtremesSource.query_executor :=
                   snd (getExtremes (RemoteExtremesSource.query_executor s)) |} in
    if Block_bool block then
      if Block_consistent block then
        (Returned tt,
         RemoteExtremesSource.set_base
           (set_has_input true
              (set_current_chunk (chunk_of_block false block)
                 (RemoteExtremesSource.base s))) s1)
      else
        (Thrown invalid_rows_error,
         RemoteExtremesSource.set_base
           (set_finished true (RemoteExtremesSource.base s)) s1)
    else
      (Returned tt,
       RemoteExtremesSource.set_base
         (set_finished true (RemoteExtremesSource.base s)) s1).
Proof.
  unfold RemoteExtremesSource.work, ISourceBase.work, RemoteExtremesSource.tryGenerate,
    ISourceBase.default_tryGenerate, RemoteExtremesSource.generate,
    RemoteExtremesSource.executor_getExtremes, bind, ret, call.
  cbn -[Chunk_make Chunk_bool Block_bool chunk_of_block Block_consistent].
  destruct (Block_bool (fst (getExtremes (RemoteExtremesSource.query_executor s))))
    eqn:Hb; [| reflexivity].
  rewrite Chunk_make_block.
  destruct (Block_consistent
              (fst (getExtremes (RemoteExtremesSource.query_executor s))));
    [| reflexivity].
  cbn -[Chunk_bool chunk_of_block]. rewrite (chunk_of_block_not_empty _ Hb).
  cbn -[chunk_of_block]. rewrite ?(chunk_of_block_not_empty _ Hb). reflexivity.
Qed.


Ltac extremes_simpl :=
  cbn -[Pipeline.drive RemoteExtremesSource.work Chunk_bool Block_bool
        chunk_of_block Block_consistent].

(** The executor has an extremes block: two rounds of the driver put one
    chunk on the output and leave the source waiting again. *)
Lemma extremes_present_step (s : RemoteExtremesSource.t H) (n : nat) :
  extremes_idle s ->
  Block_bool (fst (getExtremes (RemoteExtremesSource.query_executor s))) = true ->
  Block_consistent (fst (getExtremes (RemoteExtremesSource.query_executor s))) = true ->
  exists s' : RemoteExtremesSource.t H,
    RemoteExtremesSource.run (2 + n) s = RemoteExtremesSource.run n s'
    /\ extremes_idle s'
    /\ RemoteExtremesSource.query_executor s'
       = snd (getExtremes (RemoteExtremesSource.query_executor s))
    /\ RemoteExtremesSource.emitted s'
       = RemoteExtremesSource.emitted s
         ++ [chunk_of_block false
               (fst (getExtremes (RemoteExtremesSource.query_executor s)))].
Proof.
  intros (Hf & Hp & Hi) Hb Hr.
  destruct s as [[[hd pf pn sl pu] fin inp cur] h]. cbn -[Block_consistent Block_bool] in Hf, Hp, Hi, Hb, Hr. subst.
  unfold RemoteExtremesSource.run. change (2 + n) with (S (S n)).
  rewrite drive_S.
  unfold Pipeline.consume, RemoteExtremesSource.prepare, ISourceBase.inherited_prepare.
  extremes_simpl.
  rewrite extremes_work_outcome. extremes_simpl. rewrite Hb, Hr.
  rewrite drive_S. extremes_simpl.
  eexists. split; [reflexivity |].
  unfold extremes_idle, RemoteExtremesSource.emitted. cbn -[chunk_of_block]. auto.
Qed.

(** The executor has no extremes block: the source finishes, and the run
    ends without a chunk. *)
Lemma extremes_absent_step (s : RemoteExtremesSource.t H) (n : nat) :
  extremes_idle s ->
  Block_bool (fst (getExtremes (RemoteExtremesSource.query_executor s))) = false ->
  exists s' : RemoteExtremesSource.t H,
    RemoteExtremesSource.run (2 + n) s = (Done, s')
    /\ RemoteExtremesSource.emitted s' = RemoteExtremesSource.emitted s.
Proof.
  intros (Hf & Hp & Hi) Hb.
  destruct s as [[[hd pf pn sl pu] fin inp cur] h]. cbn in Hf, Hp, Hi, Hb. subst.
  unfold RemoteExtremesSource.run. change (2 + n) with (S (S n)).
  rewrite drive_S.
  unfold Pipeline.consume, RemoteExtremesSource.prepare, ISourceBase.inherited_prepare.
  extremes_simpl.
  rewrite extremes_work_outcome. extremes_simpl. rewrite Hb.
  rewrite drive_S. extremes_simpl.
  eexists. split; [reflexivity |].
  unfold RemoteExtremesSource.emitted. cbn. auto.
Qed.




End SideChannelProperties.


(** ** The theorems at concrete sources *)

Lemma prepare_after_cancel_is_finished_witness :
  (RemoteSource.was_query_canceled Examples.parked_cancelled = true
   /\ RemoteSource.is_async_state Examples.parked_cancelled = true)
  /\ fst (RemoteSource.prepare ISourceBase.prepare
            (RemoteSource.after_all ISourceBase.prepare
               [RemoteSource.CallTryGenerate; RemoteSource.CallPrepare]
               Examples.parked_cancelled))
     = Returned Finished.
Proof.
  split; [split; reflexivity |].
  destruct (prepare_after_cancel_is_finished ISourceBase.prepare
              Examples.parked_cancelled
              [RemoteSource.CallTryGenerate; RemoteSource.CallPrepare] eq_refl)
    as (Heq & _).
  rewrite Heq. reflexivity.
Defined.

Lemma prepare_canceled_frame_witness :
  RemoteSource.was_query_canceled Examples.parked_cancelled = true
  /\ Recorder.calls
       (RemoteSource.query_executor
          (snd (RemoteSource.prepare ISourceBase.prepare Examples.parked_cancelled)))
     = Recorder.calls (RemoteSource.query_executor Examples.parked_cancelled).
Proof.
  split; [reflexivity |].
  destruct (prepare_canceled_frame ISourceBase.prepare Examples.parked_cancelled eq_refl)
    as ((_ & _ & _ & Hq & _) & _).
  rewrite Hq. reflexivity.
Defined.

Lemma tryGenerate_nothing_is_logical_error_witness :
  (fst (read_answer (Examples.async_source Nothing)) = Nothing
   /\ fst (RemoteSource.tryGenerate (Examples.async_source Nothing))
      = Thrown empty_packet_error)
  /\ (fst (RemoteSource.tryGenerate
             (RemoteSource.create Examples.session false true 0%N))
      <> Thrown empty_packet_error).
Proof.
  split.
  - split; [reflexivity |].
    destruct (@tryGenerate_nothing_is_logical_error Recorder.t unit _) as (Hthrow & _).
    rewrite (Hthrow (Examples.async_source Nothing) eq_refl eq_refl eq_refl).
    reflexivity.
  - destruct (@tryGenerate_nothing_is_logical_error Session.t unit _) as (_ & Hnever).
    assert (Hread : forall (h : Session.t) (c : unit), fst (read h c) <> Nothing)
      by (intros h c; simpl; discriminate).
    exact (proj1 (Hnever Hread
                    (RemoteSource.create Examples.session false true 0%N))).
Defined.

Lemma tryGenerate_async_outcomes_witness :
  (fst (read_answer (Examples.async_source (FileDescriptor 7))) = FileDescriptor 7
   /\ RemoteSource.fd (snd (RemoteSource.tryGenerate
                              (Examples.async_source (FileDescriptor 7)))) = 7%Z
   /\ fst (RemoteSource.prepare ISourceBase.prepare
             (snd (RemoteSource.tryGenerate
                     (Examples.async_source (FileDescriptor 7)))))
      = Returned Async)
  /\ (fst (read_answer (Examples.async_source ParallelReplicasToken))
      = ParallelReplicasToken
      /\ RemoteSource.tryGenerate (Examples.async_source ParallelReplicasToken)
         = (Returned (Some Chunk_empty),
            RemoteSource.set_is_async_state false
              (after_read (Examples.async_source ParallelReplicasToken))))
  /\ (fst (read_answer (Examples.async_source (Data (block_of_rows 3))))
      = Data (block_of_rows 3)
      /\ fst (RemoteSource.tryGenerate
                (Examples.async_source (Data (block_of_rows 3))))
         = Returned (Some (chunk_of_block false (block_of_rows 3)))
      /\ RemoteSource.is_async_state
           (snd (RemoteSource.tryGenerate
                   (Examples.async_source (Data (block_of_rows 3)))))
         = false).
Proof.
  split; [| split].
  - split; [reflexivity |].
    destruct (tryGenerate_async_outcomes ISourceBase.prepare
                (Examples.async_source (FileDescriptor 7)) eq_refl eq_refl)
      as (Hfd & _).
    destruct (Hfd 7%Z eq_refl) as (_ & Hd & _ & Hp).
    split; [exact Hd |]. rewrite Hp. reflexivity.
  - split; [reflexivity |].
    destruct (tryGenerate_async_outcomes ISourceBase.prepare
                (Examples.async_source ParallelReplicasToken) eq_refl eq_refl)
      as (_ & Htoken & _).
    destruct (Htoken eq_refl) as (Heq & _). exact Heq.
  - split; [reflexivity |].
    destruct (tryGenerate_async_outcomes ISourceBase.prepare
                (Examples.async_source (Data (block_of_rows 3))) eq_refl eq_refl)
      as (_ & _ & Hdata).
    destruct (Hdata (block_of_rows 3) eq_refl) as (_ & Hout & Ha).
    split; [rewrite Hout; reflexivity | exact Ha].
Defined.

Lemma prepare_port_full_marker_witness :
  (RemoteSource.was_query_canceled Examples.coordinated = false
   /\ RemoteSource.is_async_state Examples.coordinated = false
   /\ fst (ISourceBase.prepare (RemoteSource.base Examples.coordinated)) = PortFull
   /\ dependency_accepts Examples.coordinated = true)
  /\ fst (RemoteSource.prepare ISourceBase.prepare Examples.coordinated)
     = Returned PortFull
  /\ dependency_pushed
       (snd (RemoteSource.prepare ISourceBase.prepare Examples.coordinated))
     = [Chunk_empty].
Proof.
  split; [repeat split |].
  destruct (prepare_port_full_marker ISourceBase.prepare Examples.coordinated
              eq_refl eq_refl eq_refl) as (Hs & Hacc & _).
  split; [exact Hs |].
  destruct (Hacc eq_refl) as (_ & Hp). rewrite Hp. reflexivity.
Defined.

Lemma onCancel_idempotent_witness :
  (forall (h : Session.t) (c : unit),
     cancel (fst (cancel h c)) (snd (cancel h c)) = cancel h c)
  /\ snd (RemoteSource.onCancel
            (snd (RemoteSource.onCancel
                    (RemoteSource.create Examples.session false false 0%N))))
     = snd (RemoteSource.onCancel
              (RemoteSource.create Examples.session false false 0%N)).
Proof.
  assert (Hidem : forall (h : Session.t) (c : unit),
                    cancel (fst (cancel h c)) (snd (cancel h c)) = cancel h c).
  { intros [[] hd rem tot ext] []; reflexivity. }
  split; [exact Hidem |].
  destruct (onCancel_idempotent ISourceBase.prepare Hidem
              (RemoteSource.create Examples.session false false 0%N)) as (Heq & _).
  exact Heq.
Defined.

Lemma chunk_aggregation_info_witness :
  RemoteSource.tryGenerate
    (RemoteSource.create Examples.aggregate_session false false 0%N)
  = (Returned
       (Some {| columns := [[1; 2; 3]%Z]; num_rows := 3%N;
                chunk_info := Some {| agg_is_overflows := true;
                                      agg_bucket_num := 5%Z |} |}),
     snd (RemoteSource.tryGenerate
            (RemoteSource.create Examples.aggregate_session false false 0%N)))
  /\ (Chunk_bool {| columns := [[1; 2; 3]%Z]; num_rows := 3%N;
                    chunk_info := Some {| agg_is_overflows := true;
                                          agg_bucket_num := 5%Z |} |} = true
      /\ source_block (RemoteSource.create Examples.aggregate_session false false 0%N)
         = Some Examples.aggregate_block).
Proof.
  assert (Hrun :
    RemoteSource.tryGenerate
      (RemoteSource.create Examples.aggregate_session false false 0%N)
    = (Returned
         (Some {| columns := [[1; 2; 3]%Z]; num_rows := 3%N;
                  chunk_info := Some {| agg_is_overflows := true;
                                        agg_bucket_num := 5%Z |} |}),
       snd (RemoteSource.tryGenerate
              (RemoteSource.create Examples.aggregate_session false false 0%N))))
    by reflexivity.
  split; [exact Hrun |].
  destruct (chunk_aggregation_info ISourceBase.prepare Examples.aggregate_session
              false false 0%N [] _ _ Hrun) as [(Hempty & _) | (Hb & _)].
  - discriminate Hempty.
  - split; [exact Hb | reflexivity].
Defined.


Lemma query_sent_once_witness :
  RemoteSource.was_query_canceled
    (RemoteSource.after_all ISourceBase.prepare [RemoteSource.CallPrepare]
       (Examples.async_source ParallelReplicasToken)) = false
  /\ Recorder.count Recorder.call_sendQuery
       (RemoteSource.query_executor
          (RemoteSource.after_all ISourceBase.prepare
             [RemoteSource.CallPrepare; RemoteSource.CallTryGenerate;
              RemoteSource.CallTryGenerate; RemoteSource.CallOnCancel;
              RemoteSource.CallTryGenerate]
             (Examples.async_source ParallelReplicasToken))) = 1.
Proof.
  split; [reflexivity |].
  destruct (query_sent_once ISourceBase.prepare) as (_ & Hruns).
  destruct (Hruns (block_of_rows 0) (fun _ => ParallelReplicasToken)
              (fun _ => Block_empty) (fun _ => Block_empty) (fun _ => Block_empty)
              false true 0%N
              [RemoteSource.CallPrepare; RemoteSource.CallTryGenerate;
               RemoteSource.CallTryGenerate; RemoteSource.CallOnCancel;
               RemoteSource.CallTryGenerate])
    as (_ & _ & _ & Honce).
  destruct (Honce [RemoteSource.CallPrepare]
              [RemoteSource.CallTryGenerate; RemoteSource.CallOnCancel;
               RemoteSource.CallTryGenerate] eq_refl eq_refl) as (_ & Hcount).
  exact Hcount.
Defined.

(** * Further properties of [RemoteSource] *)

(** Case analysis of a method on every test it makes. *)
Ltac case_method :=
  unfold_method; cbn;
  repeat match goal with
         | |- context [if ?b then _ else _] => destruct b eqn:?; cbn
         | |- context [match ?x with _ => _ end] => destruct x eqn:?; cbn
         end.

Section MoreRemoteSourceProperties.

Context {H RC : Type} `{RemoteQueryExecutor H RC}.
Variable ISource_prepare : ISource -> Status * ISource.

Import RemoteSource.

Local Abbreviation source := (RemoteSource.t H RC).
Local Abbreviation prepare := (RemoteSource.prepare ISource_prepare).
Local Abbreviation after := (RemoteSource.after ISource_prepare).
Local Abbreviation after_all := (RemoteSource.after_all ISource_prepare).

Lemma after_all_cons (e : Event) (es : list Event) (s : source) :
  after_all (e :: es) s = after_all es (after e s).
Proof. reflexivity. Qed.

Lemma after_all_app (es1 es2 : list Event) (s : source) :
  after_all (es1 ++ es2) s = after_all es2 (after_all es1 s).
Proof. unfold RemoteSource.after_all. apply fold_left_app. Qed.

(** *** A parked source *)

Lemma parked_after_poll (e : Event) (s : source) :
  is_poll e = true ->
  was_query_canceled s = false ->
  is_async_state s = true ->
  was_query_canceled (after e s) = false
  /\ is_async_state (after e s) = true
  /\ query_executor (after e s) = query_executor s
  /\ read_context (after e s) = read_context s
  /\ fd (after e s) = fd s.
Proof.
  intros He Hc Ha. destruct e; try discriminate; cbn [RemoteSource.after].
  - unfold_method. rewrite Hc, Ha. cbn. auto.
  - cbn. auto.
Qed.

(** X1. A source parked in the async state and not cancelled stays parked
    as long as the scheduler only polls it: whatever the number of
    [prepare] calls and whatever its neighbours do to its ports (closing
    the main output included), [prepare] answers [Async] without changing
    the object, and the executor, the read context and [fd] stay as they
    are.  Only [tryGenerate], [onCancel] or [onUpdatePorts] end the wait. *)
Theorem parked_stays_parked (s : source) (es : list Event) :
  was_query_canceled s = false ->
  is_async_state s = true ->
  forallb is_poll es = true ->
  let s' := after_all es s in
  prepare s' = (Returned Async, s')
  /\ query_executor s' = query_executor s
  /\ read_context s' = read_context s
  /\ fd s' = fd s.
Proof.
  revert s. induction es as [| e es IH]; intros s Hc Ha Hes s'; subst s'.
  - cbn. unfold_method. rewrite Hc, Ha. auto.
  - cbn [forallb] in Hes. apply andb_true_iff in Hes. destruct Hes as [He Hes].
    rewrite after_all_cons.
    destruct (parked_after_poll e s He Hc Ha) as (Hc1 & Ha1 & Hq & Hr & Hf).
    destruct (IH (after e s) Hc1 Ha1 Hes) as (Hp & Hq' & Hr' & Hf').
    repeat split; congruence.
Qed.

(** *** Markers on the dependency port *)

Lemma blocked_after_call (e : Event) (s : source) :
  is_method_call e = true ->
  dependency_blocked s ->
  dependency_blocked (after e s)
  /\ dependency_pushed (after e s) = dependency_pushed s.
Proof.
  unfold dependency_blocked, dependency_pushed.
  intros He Hb. destruct e; try discriminate; cbn [RemoteSource.after].
  - revert Hb. unfold_method. cbn.
    destruct (dependency_port s) as [p |] eqn:Hp; intros Hb;
      destruct (was_query_canceled s); cbn; rewrite ?Hp; auto;
      destruct (is_async_state s); cbn; rewrite ?Hp; auto;
      destruct (Status_eqb (fst (ISource_prepare (base s))) Finished); cbn;
      rewrite ?Hp; cbn; auto;
      destruct (Status_eqb (fst (ISource_prepare (base s))) PortFull); cbn;
      rewrite ?Hp; cbn; rewrite ?Hp; auto.
    rewrite Hb, andb_false_r. cbn. rewrite Hp. auto.
  - assert (Hd : dependency_port (snd (tryGenerate s)) = dependency_port s)
      by (case_method; reflexivity).
    rewrite Hd. auto.
  - cbn. auto.
  - assert (Hd : dependency_port (snd (onUpdatePorts s)) = dependency_port s)
      by (case_method; reflexivity).
    rewrite Hd. auto.
Qed.

Lemma blocked_after_calls (es : list Event) (s : source) :
  forallb is_method_call es = true ->
  dependency_blocked s ->
  dependency_blocked (after_all es s)
  /\ dependency_pushed (after_all es s) = dependency_pushed s.
Proof.
  revert s. induction es as [| e es IH]; intros s Hes Hb; [cbn; auto |].
  cbn [forallb] in Hes. apply andb_true_iff in Hes. destruct Hes as [He Hes].
  rewrite after_all_cons.
  destruct (blocked_after_call e s He Hb) as (Hb1 & Hp1).
  destruct (IH (after e s) Hes Hb1) as (Hb2 & Hp2).
  split; [exact Hb2 | congruence].
Qed.

Lemma pushed_after_call (e : Event) (s : source) :
  is_method_call e = true ->
  dependency_pushed (after e s) = dependency_pushed s
  \/ (dependency_pushed (after e s) = dependency_pushed s ++ [Chunk_empty]
      /\ dependency_blocked (after e s)).
Proof.
  unfold dependency_blocked, dependency_pushed.
  intros He. destruct e; try discriminate; cbn [RemoteSource.after].
  - unfold_method. cbn.
    destruct (dependency_port s) as [p |] eqn:Hp;
      destruct (was_query_canceled s); cbn; rewrite ?Hp; auto;
      destruct (is_async_state s); cbn; rewrite ?Hp; auto;
      destruct (Status_eqb (fst (ISource_prepare (base s))) Finished); cbn;
      rewrite ?Hp; cbn; auto;
      destruct (Status_eqb (fst (ISource_prepare (base s))) PortFull); cbn;
      rewrite ?Hp; cbn; rewrite ?Hp; auto.
    destruct (negb (OutputPort.isFinished p) && OutputPort.canPush p) eqn:Hacc;
      cbn; rewrite ?Hp; auto.
    right. split; [reflexivity |].
    unfold OutputPort.canPush. cbn. apply andb_false_r.
  - left. assert (Hd : dependency_port (snd (tryGenerate s)) = dependency_port s)
      by (case_method; reflexivity).
    now rewrite Hd.
  - left. reflexivity.
  - left. assert (Hd : dependency_port (snd (onUpdatePorts s)) = dependency_port s)
      by (case_method; reflexivity).
    now rewrite Hd.
Qed.

(** X2. However many methods of the source are called in a row, in any
    order, while its neighbours leave the dependency port alone, at most
    one marker is pushed on that port: the chunks pushed are those pushed
    before, or those and one empty chunk.  [prepare] never pushes onto a
    port that still holds a marker. *)
Theorem at_most_one_marker (s : source) (es : list Event) :
  forallb is_method_call es = true ->
  dependency_pushed (after_all es s) = dependency_pushed s
  \/ dependency_pushed (after_all es s) = dependency_pushed s ++ [Chunk_empty].
Proof.
  revert s. induction es as [| e es IH]; intros s Hes; [left; reflexivity |].
  cbn [forallb] in Hes. apply andb_true_iff in Hes. destruct Hes as [He Hes].
  rewrite after_all_cons.
  destruct (pushed_after_call e s He) as [Hsame | (Hone & Hblocked)].
  - rewrite <- Hsame. apply IH, Hes.
  - right. destruct (blocked_after_calls es (after e s) Hes Hblocked) as (_ & Hp).
    congruence.
Qed.

(** *** The end of the source *)

Lemma closed_after_call (e : Event) (s : source) :
  is_method_call e = true ->
  dependency_closed s ->
  dependency_closed (after e s)
  /\ dependency_pushed (after e s) = dependency_pushed s.
Proof.
  unfold dependency_closed, dependency_pushed.
  intros He Hb. destruct e; try discriminate; cbn [RemoteSource.after].
  - revert Hb. unfold_method. cbn.
    destruct (dependency_port s) as [p |] eqn:Hp; intros Hb;
      destruct (was_query_canceled s); cbn; rewrite ?Hp; auto;
      destruct (is_async_state s); cbn; rewrite ?Hp; auto;
      destruct (Status_eqb (fst (ISource_prepare (base s))) Finished); cbn;
      rewrite ?Hp; cbn; auto;
      destruct (Status_eqb (fst (ISource_prepare (base s))) PortFull); cbn;
      rewrite ?Hp; cbn; rewrite ?Hp; auto.
    rewrite Hb. cbn. rewrite Hp. auto.
  - assert (Hd : dependency_port (snd (tryGenerate s)) = dependency_port s)
      by (case_method; reflexivity).
    rewrite Hd. auto.
  - cbn. auto.
  - assert (Hd : dependency_port (snd (onUpdatePorts s)) = dependency_port s)
      by (case_method; reflexivity).
    rewrite Hd. auto.
Qed.

Lemma closed_after_calls (es : list Event) (s : source) :
  forallb is_method_call es = true ->
  dependency_closed s ->
  dependency_closed (after_all es s)
  /\ dependency_pushed (after_all es s) = dependency_pushed s.
Proof.
  revert s. induction es as [| e es IH]; intros s Hes Hb; [cbn; auto |].
  cbn [forallb] in Hes. apply andb_true_iff in Hes. destruct Hes as [He Hes].
  rewrite after_all_cons.
  destruct (closed_after_call e s He Hb) as (Hb1 & Hp1).
  destruct (IH (after e s) Hes Hb1) as (Hb2 & Hp2).
  split; [exact Hb2 | congruence].
Qed.

(** X3. When the base reports [Finished] to a source that is neither
    cancelled nor parked, [prepare] returns [Finished], calls the
    executor's [finish] once, pushes nothing, and leaves the source
    unparked with its dependency port finished; from then on no call of a
    method of the source pushes a marker on that port. *)
Theorem finished_closes_dependency_port (s : source) (es : list Event) :
  was_query_canceled s = false ->
  is_async_state s = false ->
  fst (ISource_prepare (base s)) = Finished ->
  forallb is_method_call es = true ->
  let s1 := snd (prepare s) in
  fst (prepare s) = Returned Finished
  /\ (query_executor s1, read_context s1)
     = finish (query_executor s) (read_context s)
  /\ is_async_state s1 = false
  /\ dependency_closed s1
  /\ dependency_pushed s1 = dependency_pushed s
  /\ dependency_closed (after_all es s1)
  /\ dependency_pushed (after_all es s1) = dependency_pushed s.
Proof.
  intros Hc Ha Hb Hes s1.
  destruct (prepare_base_finished ISource_prepare s Hc Ha Hb) as (Hst & Hfin & Hdep & Has).
  fold s1 in Hfin, Hdep, Has.
  assert (Hclosed : dependency_closed s1).
  { unfold dependency_closed. rewrite Hdep.
    destruct (dependency_port s); cbn; auto. }
  assert (Hpushed : dependency_pushed s1 = dependency_pushed s).
  { unfold dependency_pushed. rewrite Hdep.
    destruct (dependency_port s); cbn; auto. }
  destruct (closed_after_calls es s1 Hes Hclosed) as (Hclosed' & Hpushed').
  repeat split; auto. congruence.
Qed.

(** *** Blocking mode *)

Lemma blocking_after (e : Event) (s : source) :
  async_read s = false ->
  is_async_state s = false ->
  async_read (after e s) = false
  /\ is_async_state (after e s) = false
  /\ fd (after e s) = fd s.
Proof.
  intros Hm Ha.
  destruct e; cbn [RemoteSource.after]; unfold_method; cbn; rewrite ?Hm, ?Ha; cbn;
    repeat match goal with
           | |- context [if ?b then _ else _] => destruct b eqn:?; cbn
           | |- context [match ?x with _ => _ end] => destruct x eqn:?; cbn
           end; rewrite ?Hm, ?Ha; repeat split; congruence.
Qed.

(** X4. A source constructed for blocking reads never parks: whatever
    happens to it, [is_async_state] stays clear and [fd] stays -1, and
    [prepare] answers [Async] only if the base does. *)
Theorem blocking_source_never_parks (executor : H) (agg : bool) (u : UUID)
    (es : list Event) :
  let s := after_all es (create executor agg false u) in
  async_read s = false
  /\ is_async_state s = false
  /\ fd s = (-1)%Z
  /\ (fst (prepare s) = Returned Async ->
      fst (ISource_prepare (base s)) = Async).
Proof.
  intros s.
  assert (Hinv : async_read s = false /\ is_async_state s = false /\ fd s = (-1)%Z).
  { subst s.
    assert (Hgen : forall (l : list Event) (s0 : source),
              async_read s0 = false -> is_async_state s0 = false ->
              async_read (after_all l s0) = false
              /\ is_async_state (after_all l s0) = false
              /\ fd (after_all l s0) = fd s0).
    { induction l as [| e l IH]; intros s0 Hm Ha; [cbn; auto |].
      rewrite after_all_cons.
      destruct (blocking_after e s0 Hm Ha) as (Hm1 & Ha1 & Hf1).
      destruct (IH (after e s0) Hm1 Ha1) as (Hm2 & Ha2 & Hf2).
      repeat split; congruence. }
    apply (Hgen es (create executor agg false u)); reflexivity. }
  destruct Hinv as (Hm & Ha & Hf). clearbody s. repeat split; auto.
  unfold_method. cbn.
  destruct (was_query_canceled s); cbn; [discriminate |].
  rewrite Ha. cbn.
  destruct (fst (ISource_prepare (base s))); cbn;
    try discriminate; try reflexivity.
Qed.

(** *** The end of the stream *)

(** X5. [tryGenerate] returns no chunk exactly when the source is
    cancelled or the block it got from the executor has no columns.  In
    the second case it has called [finish] once, right after the read,
    it has not touched the base, and in asynchronous mode it has left the
    async state. *)
Theorem tryGenerate_end_of_stream (s : source) :
  (fst (tryGenerate s) = Returned None
   <-> was_query_canceled s = true
       \/ exists block, source_block s = Some block /\ Block_bool block = false)
  /\ (was_query_canceled s = false ->
      forall block : Block,
        source_block s = Some block ->
        Block_bool block = false ->
        let s' := snd (tryGenerate s) in
        (query_executor s', read_context s')
        = finish (fst (session_after_read s)) (snd (session_after_read s))
        /\ base s' = base s
        /\ was_query_sent s' = true
        /\ is_async_state s' = (if async_read s then false else is_async_state s)).
Proof.
  assert (Hwrap0 : forall (block : Block) (s0 : source),
            Block_bool block = true -> fst (wrap_block block s0) <> Returned None).
  { intros block s0 Hb. rewrite wrap_block_outcome, Hb. cbn [negb].
    destruct (Block_consistent block); discriminate. }
  destruct (at_read_flags s) as (_ & Hm & _ & Hsent).
  assert (Hbase : base (at_read s) = base s /\ is_async_state (at_read s) = is_async_state s).
  { unfold at_read. unfold_method. destruct (was_query_sent s); cbn; auto. }
  destruct Hbase as (Hbase & Hasync).
  split.
  - destruct (was_query_canceled s) eqn:Hc.
    { rewrite (tryGenerate_canceled s Hc). split; auto. }
    unfold source_block. destruct (async_read s) eqn:Ha.
    + rewrite (tryGenerate_async s Hc Ha).
      destruct (fst (read_answer s)) as [| d | | block]; cbn.
      * split; [discriminate | intros [? | (b & ? & _)]; discriminate].
      * split; [discriminate | intros [? | (b & ? & _)]; discriminate].
      * split; [discriminate | intros [? | (b & ? & _)]; discriminate].
      * destruct (Block_bool block) eqn:Hb.
        -- split; [intros Hn; now apply Hwrap0 in Hn |].
           intros [? | (b & Hsb & Hbb)]; [discriminate |].
           injection Hsb as <-. congruence.
        -- rewrite wrap_block_end_of_stream by exact Hb. split; eauto.
    + rewrite (tryGenerate_blocking s Hc Ha).
      destruct (Block_bool (fst (readBlock_answer s))) eqn:Hb.
      * split; [intros Hn; now apply Hwrap0 in Hn |].
        intros [? | (b & Hsb & Hbb)]; [discriminate |].
        injection Hsb as <-. congruence.
      * rewrite wrap_block_end_of_stream by exact Hb. split; eauto.
  - intros Hc block Hsb Hb s'. subst s'.
    unfold source_block, session_after_read in *.
    destruct (async_read s) eqn:Ha.
    + rewrite (tryGenerate_async s Hc Ha).
      destruct (fst (read_answer s)) as [| d | | block']; try discriminate.
      injection Hsb as ->.
      rewrite wrap_block_end_of_stream by exact Hb. cbn.
      unfold after_read. cbn.
      destruct (snd (read_answer s)) as [h c]; cbn.
      destruct (finish h c); cbn. auto.
    + rewrite (tryGenerate_blocking s Hc Ha).
      injection Hsb as <-.
      rewrite wrap_block_end_of_stream by exact Hb. cbn.
      destruct (finish _ _); cbn. auto.
Qed.

(** *** The main output closed by the consumer *)

(** X6. [onUpdatePorts] does nothing while the main output is open.  Once
    the consumer has finished the main output and [onUpdatePorts] is
    delivered, the source is cancelled and [finish] has been called on the
    executor: [tryGenerate] then returns no chunk and leaves the object as
    it is, and [prepare] returns [Finished]. *)
Theorem onUpdatePorts_stops_the_source (s : source) (on_dependency : Port -> Port) :
  (OutputPort.isFinished (output (base s)) = false ->
   onUpdatePorts s = (Returned tt, s))
  /\ (let s' := after CallOnUpdatePorts
                  (after (PortsChanged OutputPort.finish on_dependency) s) in
      was_query_canceled s' = true
      /\ (query_executor s', read_context s')
         = finish (query_executor s) (read_context s)
      /\ tryGenerate s' = (Returned None, s')
      /\ fst (prepare s') = Returned Finished).
Proof.
  split.
  - intros Hopen. unfold_method. rewrite Hopen. reflexivity.
  - cbn zeta.
    assert (Hc : was_query_canceled
                   (after CallOnUpdatePorts
                      (after (PortsChanged OutputPort.finish on_dependency) s))
                 = true) by reflexivity.
    split; [exact Hc |]. split.
    + cbn. destruct (finish (query_executor s) (read_context s)); reflexivity.
    + split.
      * apply tryGenerate_canceled, Hc.
      * rewrite (prepare_canceled ISource_prepare _ Hc). reflexivity.
Qed.

(** *** The replica group *)

(** X7. [getParallelReplicasGroupUUID] returns the UUID given to the
    constructor in every state the source can come to, before and after
    [connectToScheduler]. *)
Theorem replica_group_uuid_is_constant (executor : H) (agg async : bool)
    (u : UUID) (es1 es2 : list Event) :
  getParallelReplicasGroupUUID (after_all es1 (create executor agg async u)) = u
  /\ getParallelReplicasGroupUUID
       (after_all es2
          (connectToScheduler (after_all es1 (create executor agg async u))))
     = u.
Proof.
  unfold getParallelReplicasGroupUUID.
  destruct (constants_after_all ISource_prepare es1 (create executor agg async u))
    as (_ & _ & Hu1).
  destruct (constants_after_all ISource_prepare es2
              (connectToScheduler (after_all es1 (create executor agg async u))))
    as (_ & _ & Hu2).
  split; [exact Hu1 |]. rewrite Hu2. exact Hu1.
Qed.

End MoreRemoteSourceProperties.

(** ** Further properties of the calls on the executor *)

Section MoreRecordedProperties.

Variable ISource_prepare : ISource -> Status * ISource.

Import RemoteSource.

Local Abbreviation source := (RemoteSource.t Recorder.t unit).
Local Abbreviation prepare := (RemoteSource.prepare ISource_prepare).
Local Abbreviation after := (RemoteSource.after ISource_prepare).
Local Abbreviation after_all := (RemoteSource.after_all ISource_prepare).

Lemma shutdown_only_after (e : Event) (s : source) :
  generates e s = false ->
  exists tail : list Recorder.Call,
    recorded (after e s) = recorded s ++ tail
    /\ forallb is_shutdown tail = true
    /\ List.length tail <= 1.
Proof.
  unfold recorded, generates. intros Hg.
  destruct e; cbn [RemoteSource.after].
  - unfold_method. cbn.
    destruct (was_query_canceled s); cbn; [exists []; rewrite app_nil_r; auto |].
    destruct (is_async_state s); cbn; [exists []; rewrite app_nil_r; auto |].
    destruct (Status_eqb (fst (ISource_prepare (base s))) Finished); cbn.
    + exists [Recorder.call_finish].
      destruct (dependency_port s); cbn; auto.
    + exists []. rewrite app_nil_r.
      destruct (Status_eqb (fst (ISource_prepare (base s))) PortFull); cbn; auto.
      destruct (dependency_port s) as [p |]; cbn; auto.
      destruct (negb (OutputPort.isFinished p) && OutputPort.canPush p); cbn; auto.
  - apply negb_false_iff in Hg.
    rewrite (tryGenerate_canceled s Hg). exists []. rewrite app_nil_r. auto.
  - exists [Recorder.call_cancel]. cbn. auto.
  - unfold_method. cbn.
    destruct (OutputPort.isFinished (output (base s))); cbn.
    + exists [Recorder.call_finish]. auto.
    + exists []. rewrite app_nil_r. auto.
  - exists []. rewrite app_nil_r. auto.
Qed.

(** X8. The executor is sent the query and read from by [tryGenerate]
    only, and only while the source is not cancelled: every other event,
    and [tryGenerate] on a cancelled source, adds at most one call to the
    executor's record, a [finish] or a [cancel].  Hence once a source is
    cancelled, whatever happens to it afterwards, nothing but [finish] and
    [cancel] calls reach the executor: no callback is registered, no query
    sent and no block read. *)
Theorem only_generate_reads :
  (forall (e : Event) (s : source),
     generates e s = false ->
     exists tail : list Recorder.Call,
       recorded (after e s) = recorded s ++ tail
       /\ forallb is_shutdown tail = true
       /\ List.length tail <= 1)
  /\ (forall (es : list Event) (s : source),
        was_query_canceled s = true ->
        exists tail : list Recorder.Call,
          recorded (after_all es s) = recorded s ++ tail
          /\ forallb is_shutdown tail = true).
Proof.
  split; [exact shutdown_only_after |].
  induction es as [| e es IH]; intros s Hc.
  - exists []. cbn. now rewrite app_nil_r.
  - change (after_all (e :: es) s) with (after_all es (after e s)).
    assert (Hg : generates e s = false).
    { unfold generates. destruct e; auto. now rewrite Hc. }
    destruct (shutdown_only_after e s Hg) as (t1 & Ht1 & Hs1 & _).
    destruct (IH (after e s) (canceled_after ISource_prepare e s Hc))
      as (t2 & Ht2 & Hs2).
    exists (t1 ++ t2). split.
    + rewrite Ht2, Ht1. now rewrite app_assoc.
    + rewrite forallb_app, Hs1, Hs2. reflexivity.
Qed.

Lemma other_mode_read_after (e : Event) (s : source) :
  async_read (after e s) = async_read s
  /\ Recorder.count (other_mode_read (async_read s)) (query_executor (after e s))
     = Recorder.count (other_mode_read (async_read s)) (query_executor s).
Proof.
  split; [apply (constants_after ISource_prepare e s) |].
  destruct (async_read s) eqn:Hm; cbn [other_mode_read];
    destruct e; cbn [RemoteSource.after]; unfold_method; cbn; rewrite ?Hm; cbn;
    repeat match goal with
           | |- context [if ?b then _ else _] => destruct b eqn:?; cbn
           | |- context [match ?x with _ => _ end] => destruct x eqn:?; cbn
           end;
    try congruence;
    unfold Recorder.count; cbn; rewrite ?count_occ_app; cbn;
    rewrite ?Nat.add_0_r; reflexivity.
Qed.

(** X9. A source reads in one mode only: constructed for asynchronous
    reads it never calls [readBlock], constructed for blocking reads it
    never calls [read], whatever happens to it. *)
Theorem one_read_mode (h : Block) (answer_read : list Recorder.Call -> ReadResult)
    (answer_readBlock answer_getTotals answer_getExtremes :
       list Recorder.Call -> Block)
    (agg async : bool) (u : UUID) (es : list Event) :
  let executor :=
    Recorder.create h answer_read answer_readBlock answer_getTotals
      answer_getExtremes in
  let s := after_all es (create executor agg async u) in
  Recorder.count (if async then Recorder.call_readBlock else Recorder.call_read)
    (query_executor s) = 0.
Proof.
  intros executor s. subst s.
  assert (Hgen : forall (l : list Event) (s0 : source),
            async_read (after_all l s0) = async_read s0
            /\ Recorder.count (other_mode_read (async_read s0))
                 (query_executor (after_all l s0))
               = Recorder.count (other_mode_read (async_read s0)) (query_executor s0)).
  { induction l as [| e l IH]; intros s0; [cbn; auto |].
    change (after_all (e :: l) s0) with (after_all l (after e s0)).
    destruct (other_mode_read_after e s0) as (Hm & Hcount).
    destruct (IH (after e s0)) as (Hm' & Hcount').
    rewrite Hm in Hcount'. split; congruence. }
  destruct (Hgen es (create executor agg async u)) as (_ & Hcount).
  cbn [create async_read] in Hcount. unfold other_mode_read in Hcount.
  rewrite Hcount. reflexivity.
Qed.

End MoreRecordedProperties.

(** ** A blocking stream of any length *)

Section BlockingStreamProperties.

Context {H RC : Type} `{RemoteQueryExecutor H RC}.

Import RemoteSource.

Local Abbreviation source := (RemoteSource.t H RC).

Lemma chunk_of_block_bool (flag : bool) (block : Block) :
  Block_bool block = true -> Chunk_bool (chunk_of_block flag block) = true.
Proof.
  unfold Block_bool, Chunk_bool, chunk_of_block, Block_getColumns.
  destruct (data block); [discriminate |]. intros _.
  destruct flag; cbn; apply orb_true_r.
Qed.

Lemma wrap_block_present (block : Block) (s : source) :
  Block_bool block = true ->
  Block_consistent block = true ->
  wrap_block block s
  = (Returned (Some (chunk_of_block (add_aggregation_info s) block)), s).
Proof. intros Hb Hr. rewrite wrap_block_outcome, Hb, Hr. reflexivity. Qed.

Lemma at_read_sent (s : source) : was_query_sent s = true -> at_read s = s.
Proof. intros Hs. unfold at_read. unfold_method. rewrite Hs. reflexivity. Qed.

Ltac stream_simpl :=
  cbn -[Pipeline.drive work Chunk_bool Block_bool chunk_of_block tryGenerate
        readBlock_answer at_read].

Lemma streaming_present_step (s : source) (n : nat) :
  streaming s ->
  Block_bool (fst (readBlock_answer s)) = true ->
  Block_consistent (fst (readBlock_answer s)) = true ->
  exists s' : source,
    run (2 + n) s = run n s'
    /\ streaming s'
    /\ was_query_sent s' = true
    /\ query_executor s' = snd (readBlock_answer s)
    /\ read_context s' = read_context s
    /\ add_aggregation_info s' = add_aggregation_info s
    /\ emitted s'
       = emitted s
         ++ [chunk_of_block (add_aggregation_info s) (fst (readBlock_answer s))].
Proof.
  intros (Hc & Has & Hm & Hd & Hf & Hp & Hi) Hb Hrows.
  pose proof (chunk_of_block_bool (add_aggregation_info s) _ Hb) as Hchunk.
  destruct (at_read_flags s) as (_ & _ & Hagg & Hsent).
  assert (Hrc : read_context (at_read s) = read_context s).
  { unfold at_read. unfold_method. destruct (was_query_sent s); reflexivity. }
  assert (Hbase : base (at_read s) = base s
                  /\ dependency_port (at_read s) = dependency_port s
                  /\ was_query_canceled (at_read s) = false
                  /\ is_async_state (at_read s) = false
                  /\ async_read (at_read s) = false
                  /\ uuid (at_read s) = uuid s /\ fd (at_read s) = fd s).
  { unfold at_read. unfold_method. destruct (was_query_sent s); cbn; auto 10. }
  remember (readBlock_answer s) as answer eqn:Hanswer.
  remember (at_read s) as s0 eqn:Hs0.
  unfold run. change (2 + n) with (S (S n)). rewrite drive_S.
  set (s1 := Pipeline.consume _ _ s).
  assert (Hs1 : readBlock_answer s1 = answer /\ at_read s1
                = set_base (base s1) s0).
  { subst answer s0 s1. unfold readBlock_answer, at_read, Pipeline.consume.
    unfold_method. cbn. destruct (was_query_sent s); cbn; auto. }
  destruct Hs1 as (Hanswer1 & Hat1).
  assert (Hprep : pipeline_prepare s1 = (Returned Ready, s1)).
  { subst s1. unfold pipeline_prepare, Pipeline.consume. unfold_method.
    unfold ISourceBase.prepare. cbn. rewrite Hc. cbn. rewrite Has. cbn.
    rewrite Hf. cbn. rewrite Hp. cbn. rewrite Hi. cbn. reflexivity. }
  rewrite Hprep.
  assert (Hfacts : add_aggregation_info (at_read s1) = add_aggregation_info s
                   /\ read_context (at_read s1) = read_context s
                   /\ base (at_read s1) = base s1).
  { rewrite Hat1. cbn. auto. }
  destruct Hfacts as (Hagg1 & Hrc1 & Hbase1).
  assert (Hwork : work s1
                  = (Returned tt,
                     set_base
                       (set_has_input true
                          (set_current_chunk
                             (chunk_of_block (add_aggregation_info s) (fst answer))
                             (base s1)))
                       (set_session (snd answer, read_context s) (at_read s1)))).
  { unfold work, ISourceBase.work.
    rewrite (tryGenerate_blocking s1) by (subst s1; cbn; assumption).
    rewrite Hanswer1.
    rewrite wrap_block_present by assumption.
    cbn -[chunk_of_block Chunk_bool at_read].
    rewrite Hagg1, Hchunk, Hrc1, Hbase1. reflexivity. }
  rewrite Hwork. rewrite drive_S.
  destruct Hbase as (Hb0 & Hd0 & Hc0 & Ha0 & Hm0 & Hu0 & Hfd0).
  rewrite Hat1.
  unfold Pipeline.consume, pipeline_prepare. unfold_method.
  unfold ISourceBase.prepare.
  subst s1. unfold Pipeline.consume.
  cbn -[Pipeline.drive chunk_of_block].
  rewrite Hc0. cbn -[Pipeline.drive chunk_of_block].
  rewrite Ha0. cbn -[Pipeline.drive chunk_of_block].
  rewrite Hf. cbn -[Pipeline.drive chunk_of_block].
  rewrite Hp. cbn -[Pipeline.drive chunk_of_block].
  rewrite Hd0, Hd. cbn -[Pipeline.drive chunk_of_block].
  eexists. split; [reflexivity |].
  unfold streaming, emitted. cbn -[chunk_of_block].
  rewrite ?Hc0, ?Hm0, ?Hd0, ?Hd.
  repeat split; auto.
Qed.

Lemma streaming_absent_step (s : source) (n : nat) :
  streaming s ->
  Block_bool (fst (readBlock_answer s)) = false ->
  exists s' : source,
    run (2 + n) s = (Done, s')
    /\ emitted s' = emitted s
    /\ OutputPort.isFinished (output (base s')) = true
    /\ (query_executor s', read_context s')
       = finish (fst (finish (snd (readBlock_answer s)) (read_context s)))
           (snd (finish (snd (readBlock_answer s)) (read_context s))).
Proof.
  intros (Hc & Has & Hm & Hd & Hf & Hp & Hi) Hb.
  assert (Hrc : read_context (at_read s) = read_context s).
  { unfold at_read. unfold_method. destruct (was_query_sent s); reflexivity. }
  assert (Hbase : base (at_read s) = base s
                  /\ dependency_port (at_read s) = dependency_port s
                  /\ was_query_canceled (at_read s) = false
                  /\ is_async_state (at_read s) = false).
  { unfold at_read. unfold_method. destruct (was_query_sent s); cbn; auto 10. }
  remember (readBlock_answer s) as answer eqn:Hanswer.
  remember (at_read s) as s0 eqn:Hs0.
  unfold run. change (2 + n) with (S (S n)). rewrite drive_S.
  set (s1 := Pipeline.consume _ _ s).
  assert (Hs1 : readBlock_answer s1 = answer /\ at_read s1
                = set_base (base s1) s0).
  { subst answer s0 s1. unfold readBlock_answer, at_read, Pipeline.consume.
    unfold_method. cbn. destruct (was_query_sent s); cbn; auto. }
  destruct Hs1 as (Hanswer1 & Hat1).
  assert (Hprep : pipeline_prepare s1 = (Returned Ready, s1)).
  { subst s1. unfold pipeline_prepare, Pipeline.consume. unfold_method.
    unfold ISourceBase.prepare. cbn. rewrite Hc. cbn. rewrite Has. cbn.
    rewrite Hf. cbn. rewrite Hp. cbn. rewrite Hi. cbn. reflexivity. }
  rewrite Hprep.
  assert (Hfacts : read_context (at_read s1) = read_context s
                   /\ base (at_read s1) = base s1
                   /\ query_executor (at_read s1) = query_executor s0).
  { rewrite Hat1. cbn. auto. }
  destruct Hfacts as (Hrc1 & Hbase1 & Hq1).
  assert (Hwork : work s1
                  = (Returned tt,
                     set_base (set_finished true (base s1))
                       (set_session (finish (snd answer) (read_context s))
                          (at_read s1)))).
  { unfold work, ISourceBase.work.
    rewrite (tryGenerate_blocking s1) by (subst s1; cbn; assumption).
    rewrite Hanswer1.
    rewrite wrap_block_end_of_stream by exact Hb.
    cbn -[at_read]. rewrite Hrc1, Hbase1. reflexivity. }
  rewrite Hwork. rewrite drive_S.
  destruct Hbase as (Hb0 & Hd0 & Hc0 & Ha0).
  rewrite Hat1.
  unfold Pipeline.consume, pipeline_prepare. unfold_method.
  unfold ISourceBase.prepare.
  subst s1. unfold Pipeline.consume.
  cbn -[Pipeline.drive].
  rewrite Hc0. cbn -[Pipeline.drive].
  rewrite Ha0. cbn -[Pipeline.drive].
  rewrite Hd0, Hd. cbn -[Pipeline.drive].
  eexists. split; [reflexivity |].
  unfold emitted. cbn.
  destruct (finish (snd answer) (read_context s)) as [h1 c1]; cbn.
  destruct (finish h1 c1); cbn. auto.
Qed.

Lemma stream_from (n k : nat) (s : source) :
  streaming s ->
  Forall (fun block => Block_bool block = true /\ Block_consistent block = true)
    (fst (read_blocks n (query_executor (at_read s)))) ->
  Block_bool (fst (readBlock (snd (read_blocks n (query_executor (at_read s))))))
  = false ->
  exists s' : source,
    run (2 * n + 2 + k) s = (Done, s')
    /\ emitted s'
       = emitted s
         ++ map (chunk_of_block (add_aggregation_info s))
              (fst (read_blocks n (query_executor (at_read s))))
    /\ OutputPort.isFinished (output (base s')) = true
    /\ (query_executor s', read_context s')
       = finish
           (fst (finish
                   (snd (readBlock (snd (read_blocks n (query_executor (at_read s))))))
                   (read_context s)))
           (snd (finish
                   (snd (readBlock (snd (read_blocks n (query_executor (at_read s))))))
                   (read_context s))).
Proof.
  revert s. induction n as [| n IH]; intros s Hs Hpresent Habsent.
  - cbn [read_blocks fst snd] in *.
    destruct (streaming_absent_step s k Hs Habsent) as (s' & Hrun & He & Hfin & Hq).
    exists s'. change (2 * 0 + 2 + k) with (2 + k).
    cbn [map]. rewrite app_nil_r. auto.
  - cbn [read_blocks fst snd] in *.
    apply Forall_cons_iff in Hpresent.
    destruct Hpresent as ((Hfirst & Hrows) & Hrest).
    destruct (streaming_present_step s (2 * n + 2 + k) Hs Hfirst Hrows)
      as (s1 & Hrun & Hs1 & Hsent1 & Hq1 & Hr1 & Hagg1 & He1).
    replace (2 * S n + 2 + k) with (2 + (2 * n + 2 + k)) by lia.
    rewrite Hrun.
    assert (Hat : query_executor (at_read s1)
                  = snd (readBlock (query_executor (at_read s)))).
    { rewrite (at_read_sent s1 Hsent1). exact Hq1. }
    rewrite <- Hat in Hrest, Habsent.
    destruct (IH s1 Hs1 Hrest Habsent) as (s' & Hrun' & He' & Hfin' & Hq').
    exists s'. split; [exact Hrun' |]. split.
    + rewrite He', He1, Hagg1, <- app_assoc, <- Hat. reflexivity.
    + split; [exact Hfin' |]. rewrite Hq', Hr1, <- Hat. reflexivity.
Qed.

(** X10. A source constructed for blocking reads and run in a pipeline:
    when the executor, once the query is sent, gives [n] blocks with
    columns, each with all its columns of the block's number of rows, and
    then a block without columns, the run ends with [Finished], the
    main output is finished, and the chunks put on it are those of the
    [n] blocks, in order, each with the block's columns and row count and
    with aggregation info exactly when the header has an
    aggregate-function column or the caller asked for it; the executor
    has then been finished twice after the last read. *)
Theorem blocking_stream_of_any_length (executor : H) (agg : bool) (u : UUID)
    (n k : nat) :
  let blocks := fst (read_blocks n (submitted_executor executor)) in
  let last := readBlock (snd (read_blocks n (submitted_executor executor))) in
  Forall (fun block => Block_bool block = true /\ Block_consistent block = true)
    blocks ->
  Block_bool (fst last) = false ->
  let r := run (2 * n + 2 + k) (create executor agg false u) in
  fst r = Done
  /\ emitted (snd r)
     = map (chunk_of_block (agg || has_aggregate_function_column (getHeader executor)))
         blocks
  /\ OutputPort.isFinished (output (base (snd r))) = true
  /\ (query_executor (snd r), read_context (snd r))
     = finish (fst (finish (snd last) null_read_context))
         (snd (finish (snd last) null_read_context)).
Proof.
  intros blocks last Hpresent Habsent r.
  assert (Hs : streaming (create executor agg false u))
    by (unfold streaming; cbn; auto 10).
  destruct (stream_from n k (create executor agg false u) Hs Hpresent Habsent)
    as (s' & Hrun & He & Hfin & Hq).
  subst r. rewrite Hrun. cbn [fst snd].
  rewrite (create_add_aggregation_info executor agg false u) in He.
  repeat split; auto.
Qed.

End BlockingStreamProperties.

(** ** Totals and extremes of any number of blocks *)

Section SideChannelStreams.

Context {H RC : Type} `{RemoteQueryExecutor H RC}.

Lemma totals_stream_from (n k : nat) (s : RemoteTotalsSource.t H) :
  totals_idle s ->
  Forall (fun block => Block_bool block = true /\ Block_consistent block = true)
    (fst (totals_blocks n (RemoteTotalsSource.query_executor s))) ->
  Block_bool
    (fst (getTotals (snd (totals_blocks n (RemoteTotalsSource.query_executor s)))))
  = false ->
  exists s' : RemoteTotalsSource.t H,
    RemoteTotalsSource.run (2 * n + 2 + k) s = (Done, s')
    /\ RemoteTotalsSource.emitted s'
       = RemoteTotalsSource.emitted s
         ++ map (chunk_of_block false)
              (fst (totals_blocks n (RemoteTotalsSource.query_executor s))).
Proof.
  revert s. induction n as [| n IH]; intros s Hs Hpresent Habsent.
  - cbn [totals_blocks fst snd] in *.
    destruct (totals_absent_step s k Hs Habsent) as (s' & Hrun & He).
    exists s'. change (2 * 0 + 2 + k) with (2 + k).
    cbn [map]. rewrite app_nil_r. auto.
  - cbn [totals_blocks fst snd] in *.
    apply Forall_cons_iff in Hpresent.
    destruct Hpresent as ((Hfirst & Hrows) & Hrest).
    destruct (totals_present_step s (2 * n + 2 + k) Hs Hfirst Hrows)
      as (s1 & Hrun & Hs1 & Hq1 & He1).
    replace (2 * S n + 2 + k) with (2 + (2 * n + 2 + k)) by lia.
    rewrite Hrun. rewrite <- Hq1 in Hrest, Habsent.
    destruct (IH s1 Hs1 Hrest Habsent) as (s' & Hrun' & He').
    exists s'. split; [exact Hrun' |].
    rewrite He', He1, <- app_assoc, Hq1. reflexivity.
Qed.

Lemma extremes_stream_from (n k : nat) (s : RemoteExtremesSource.t H) :
  extremes_idle s ->
  Forall (fun block => Block_bool block = true /\ Block_consistent block = true)
    (fst (extremes_blocks n (RemoteExtremesSource.query_executor s))) ->
  Block_bool
    (fst (getExtremes
            (snd (extremes_blocks n (RemoteExtremesSource.query_executor s)))))
  = false ->
  exists s' : RemoteExtremesSource.t H,
    RemoteExtremesSource.run (2 * n + 2 + k) s = (Done, s')
    /\ RemoteExtremesSource.emitted s'
       = RemoteExtremesSource.emitted s
         ++ map (chunk_of_block false)
              (fst (extremes_blocks n (RemoteExtremesSource.query_executor s))).
Proof.
  revert s. induction n as [| n IH]; intros s Hs Hpresent Habsent.
  - cbn [extremes_blocks fst snd] in *.
    destruct (extremes_absent_step s k Hs Habsent) as (s' & Hrun & He).
    exists s'. change (2 * 0 + 2 + k) with (2 + k).
    cbn [map]. rewrite app_nil_r. auto.
  - cbn [extremes_blocks fst snd] in *.
    apply Forall_cons_iff in Hpresent.
    destruct Hpresent as ((Hfirst & Hrows) & Hrest).
    destruct (extremes_present_step s (2 * n + 2 + k) Hs Hfirst Hrows)
      as (s1 & Hrun & Hs1 & Hq1 & He1).
    replace (2 * S n + 2 + k) with (2 + (2 * n + 2 + k)) by lia.
    rewrite Hrun. rewrite <- Hq1 in Hrest, Habsent.
    destruct (IH s1 Hs1 Hrest Habsent) as (s' & Hrun' & He').
    exists s'. split; [exact Hrun' |].
    rewrite He', He1, <- app_assoc, Hq1. reflexivity.
Qed.

(** X11. The totals source and the extremes source ask the executor until
    it has no block: with an executor that gives [n] blocks with columns,
    each with all its columns of the block's number of rows, and then
    none, the run of the pipeline ends and the source has put [n]
    chunks on its output, one per block and in order, each with the
    block's columns and row count and none with aggregation info. *)
Theorem side_channel_emits_until_absent (h : H) (n k : nat) :
  (Forall (fun block => Block_bool block = true /\ Block_consistent block = true)
     (fst (totals_blocks n h)) ->
   Block_bool (fst (getTotals (snd (totals_blocks n h)))) = false ->
   let r := RemoteTotalsSource.run (2 * n + 2 + k) (RemoteTotalsSource.create h) in
   fst r = Done
   /\ RemoteTotalsSource.emitted (snd r)
      = map (chunk_of_block false) (fst (totals_blocks n h))
   /\ Forall (fun c => chunk_info c = None) (RemoteTotalsSource.emitted (snd r)))
  /\ (Forall
        (fun block => Block_bool block = true /\ Block_consistent block = true)
        (fst (extremes_blocks n h)) ->
      Block_bool (fst (getExtremes (snd (extremes_blocks n h)))) = false ->
      let r := RemoteExtremesSource.run (2 * n + 2 + k)
                 (RemoteExtremesSource.create h) in
      fst r = Done
      /\ RemoteExtremesSource.emitted (snd r)
         = map (chunk_of_block false) (fst (extremes_blocks n h))
      /\ Forall (fun c => chunk_info c = None)
           (RemoteExtremesSource.emitted (snd r))).
Proof.
  split.
  - intros Hpresent Habsent r.
    assert (Hidle : totals_idle (RemoteTotalsSource.create h))
      by (unfold totals_idle; cbn; auto).
    destruct (totals_stream_from n k (RemoteTotalsSource.create h) Hidle
                Hpresent Habsent) as (s' & Hrun & He).
    subst r. rewrite Hrun. cbn [fst snd]. cbn in He. rewrite He.
    repeat split. apply Forall_map, Forall_forall. reflexivity.
  - intros Hpresent Habsent r.
    assert (Hidle : extremes_idle (RemoteExtremesSource.create h))
      by (unfold extremes_idle; cbn; auto).
    destruct (extremes_stream_from n k (RemoteExtremesSource.create h) Hidle
                Hpresent Habsent) as (s' & Hrun & He).
    subst r. rewrite Hrun. cbn [fst snd]. cbn in He. rewrite He.
    repeat split. apply Forall_map, Forall_forall. reflexivity.
Qed.

End SideChannelStreams.

(** ** Cancelling a source in a pipeline *)

Section CancelledRuns.

Context {H RC : Type} `{RemoteQueryExecutor H RC}.

Import RemoteSource.

Local Abbreviation source := (RemoteSource.t H RC).

(** X12. A cancelled source ends the pipeline at the next [prepare]: the
    run after [onCancel] answers [Finished] at once with the main output
    finished, emits no further chunk, and makes no call on the executor
    beyond the [cancel] of [onCancel]; neither the dependency port nor
    the async state is touched. *)
Theorem cancelled_run_ends (s : source) (fuel : nat) :
  let cancelled := snd (onCancel s) in
  let r := run (S fuel) cancelled in
  fst r = Done
  /\ OutputPort.isFinished (output (base (snd r))) = true
  /\ emitted (snd r) = emitted s
  /\ (query_executor (snd r), read_context (snd r))
     = cancel (query_executor s) (read_context s)
  /\ dependency_port (snd r) = dependency_port s
  /\ is_async_state (snd r) = is_async_state s.
Proof.
  intros cancelled r. subst r cancelled.
  unfold run. rewrite drive_S.
  unfold Pipeline.consume, pipeline_prepare, emitted. unfold_method. cbn.
  destruct (cancel (query_executor s) (read_context s)); cbn. auto 10.
Qed.

End CancelledRuns.

(** ** Storage limits *)

Section StorageLimitsProperties.

Context {StreamLocalLimits SizeLimits : Type}.
Variable SizeLimits_default : SizeLimits.

Import StorageLimits.

Local Abbreviation limits := (StorageLimits StreamLocalLimits SizeLimits).
Local Abbreviation strip :=
  (fun value : limits =>
     {| local_limits := local_limits value; leaf_limits := SizeLimits_default |}).

Lemma setStorageLimits_loop (l acc : list limits) :
  fold_left (fun list_ value => list_ ++ [strip value]) l acc
  = acc ++ map strip l.
Proof.
  revert acc. induction l as [| v l IH]; intros acc; cbn.
  - now rewrite app_nil_r.
  - rewrite IH, <- app_assoc. reflexivity.
Qed.

Lemma setStorageLimits_map (l : list limits) :
  setStorageLimits SizeLimits_default l = map strip l.
Proof. unfold setStorageLimits. apply setStorageLimits_loop. Qed.

(** X13. [setStorageLimits] keeps the local limits of every element, in
    order and number, and replaces every leaf limit by the default one;
    limits already stripped are left as they are, and the limits of a
    concatenation are the concatenation of the limits. *)
Theorem setStorageLimits_strips_leaf_limits (l l' : list limits) :
  map local_limits (setStorageLimits SizeLimits_default l) = map local_limits l
  /\ Forall (fun value => leaf_limits value = SizeLimits_default)
       (setStorageLimits SizeLimits_default l)
  /\ List.length (setStorageLimits SizeLimits_default l) = List.length l
  /\ setStorageLimits SizeLimits_default (setStorageLimits SizeLimits_default l)
     = setStorageLimits SizeLimits_default l
  /\ setStorageLimits SizeLimits_default (l ++ l')
     = setStorageLimits SizeLimits_default l
       ++ setStorageLimits SizeLimits_default l'.
Proof.
  rewrite !setStorageLimits_map. repeat split.
  - rewrite map_map. reflexivity.
  - apply Forall_map, Forall_forall. reflexivity.
  - apply length_map.
  - rewrite map_map. reflexivity.
  - apply map_app.
Qed.

End StorageLimitsProperties.

(** ** An asynchronous source in a pipeline *)

Section AsyncRuns.

Context {H RC : Type} `{RemoteQueryExecutor H RC}.

Import RemoteSource.

Local Abbreviation source := (RemoteSource.t H RC).
Local Abbreviation consumed :=
  (Pipeline.consume (fun s : source => output (base s))
     (fun p (s : source) => set_base (set_output p (base s)) s)).

Lemma polling_first_round (s : source) :
  polling s ->
  pipeline_prepare (consumed s) = (Returned Ready, consumed s)
  /\ was_query_canceled (consumed s) = false
  /\ async_read (consumed s) = true
  /\ fst (read_answer (consumed s)) = fst (read_answer s)
  /\ base (after_read (consumed s)) = base (consumed s)
  /\ pushed (output (base (consumed s))) = pushed (output (base s))
  /\ has_input (base (consumed s)) = false.
Proof.
  intros (Hc & Has & Hm & Hf & Hp & Hi).
  split.
  { unfold pipeline_prepare, Pipeline.consume. unfold_method.
    unfold ISourceBase.prepare. cbn. rewrite Hc. cbn. rewrite Has. cbn.
    rewrite Hf. cbn. rewrite Hp. cbn. rewrite Hi. cbn. reflexivity. }
  split; [exact Hc |]. split; [exact Hm |].
  unfold after_read, read_answer, at_read, Pipeline.consume. unfold_method. cbn.
  destruct (was_query_sent s); cbn; auto.
Qed.

Lemma after_read_flags (s : source) :
  was_query_canceled (after_read s) = was_query_canceled s
  /\ was_query_sent (after_read s) = true
  /\ is_async_state (after_read s) = is_async_state s.
Proof.
  unfold after_read, read_answer, at_read. unfold_method. cbn.
  destruct (was_query_sent s) eqn:Hsent; cbn; auto.
Qed.

Lemma consumed_fields (s : source) :
  was_query_canceled (consumed s) = was_query_canceled s
  /\ is_async_state (consumed s) = is_async_state s
  /\ was_query_sent (consumed s) = was_query_sent s
  /\ fd (consumed s) = fd s
  /\ finished (base (consumed s)) = finished (base s)
  /\ has_input (base (consumed s)) = has_input (base s)
  /\ pushed (output (base (consumed s))) = pushed (output (base s)).
Proof. cbn. auto 10. Qed.

Lemma pipeline_prepare_parked (s : source) :
  was_query_canceled s = false ->
  is_async_state s = true ->
  pipeline_prepare s = (Returned Async, s).
Proof.
  intros Hc Ha. unfold pipeline_prepare. unfold_method. rewrite Hc, Ha. reflexivity.
Qed.

Lemma pipeline_prepare_finished (s : source) :
  was_query_canceled s = false ->
  is_async_state s = false ->
  finished (base s) = true ->
  fst (pipeline_prepare s) = Returned Finished.
Proof.
  intros Hc Ha Hf. unfold pipeline_prepare. unfold_method.
  unfold ISourceBase.prepare. rewrite Hc, Ha. cbn. rewrite Hf. cbn.
  destruct (dependency_port s); reflexivity.
Qed.

(** X14. An asynchronous source that is asked for data and whose executor
    answers with a file descriptor suspends the pipeline: the run stops
    with the source parked on that descriptor, before any chunk is put on
    the output; the empty chunk that [tryGenerate] returned is not
    emitted. *)
Theorem descriptor_suspends_run (s : source) (d : Z) (k : nat) :
  polling s ->
  fst (read_answer s) = FileDescriptor d ->
  let r := run (2 + k) s in
  fst r = Suspended
  /\ fd (snd r) = d
  /\ is_async_state (snd r) = true
  /\ was_query_sent (snd r) = true
  /\ emitted (snd r) = emitted s
  /\ has_input (base (snd r)) = false.
Proof.
  intros Hs Hr r. subst r.
  destruct (polling_first_round s Hs) as (Hprep & Hc & Hm & Hans & Hbase & Hpu & Hin).
  destruct (after_read_flags (consumed s)) as (Hc1 & Hsent & _).
  unfold run. change (2 + k) with (S (S k)). rewrite drive_S, Hprep.
  unfold work, ISourceBase.work.
  rewrite (tryGenerate_async (consumed s) Hc Hm), Hans, Hr.
  cbn [Chunk_bool Chunk_empty num_rows columns N.eqb negb orb].
  set (s2 := set_base _ _).
  rewrite drive_S.
  destruct (consumed_fields s2) as (Hcc & Hca & Hcs & Hcf & _ & Hci & Hcp).
  assert (Hpark : pipeline_prepare (consumed s2) = (Returned Async, consumed s2)).
  { apply pipeline_prepare_parked.
    - rewrite Hcc. subst s2. cbn -[after_read Pipeline.consume].
      rewrite Hc1. exact Hc.
    - rewrite Hca. reflexivity. }
  rewrite Hpark. cbn [fst snd]. unfold emitted.
  rewrite Hcf, Hca, Hcs, Hcp, Hci. subst s2.
  cbn -[after_read Pipeline.consume]. rewrite Hbase, Hsent, Hpu, Hin. auto 10.
Qed.

(** X15. An asynchronous source whose executor answers [Nothing] faults
    the pipeline with the logic error in the first round; the producing
    step leaves the source finished, so that a later run ends at once,
    and no chunk is emitted. *)
Theorem nothing_faults_run (s : source) (k : nat) :
  polling s ->
  fst (read_answer s) = Nothing ->
  let r := run (1 + k) s in
  fst r = Faulted empty_packet_error
  /\ finished (base (snd r)) = true
  /\ emitted (snd r) = emitted s
  /\ (forall fuel : nat, fst (run (S fuel) (snd r)) = Done).
Proof.
  intros Hs Hr r. subst r.
  destruct (polling_first_round s Hs) as (Hprep & Hc & Hm & Hans & Hbase & Hpu & Hin).
  destruct (after_read_flags (consumed s)) as (Hc1 & Hsent & Ha1).
  unfold run. change (1 + k) with (S k). rewrite drive_S, Hprep.
  unfold work, ISourceBase.work.
  rewrite (tryGenerate_async (consumed s) Hc Hm), Hans, Hr.
  set (s2 := set_base _ _). cbn [fst snd].
  assert (Hf2 : finished (base s2) = true) by reflexivity.
  assert (He2 : emitted s2 = emitted s).
  { subst s2. unfold emitted. cbn -[after_read Pipeline.consume].
    rewrite Hbase. exact Hpu. }
  repeat split; auto.
  intros fuel. rewrite drive_S.
  destruct (consumed_fields s2) as (Hcc & Hca & _ & _ & Hcf & _).
  assert (Hfin : fst (pipeline_prepare (consumed s2)) = Returned Finished).
  { apply pipeline_prepare_finished.
    - rewrite Hcc. subst s2. cbn -[after_read Pipeline.consume].
      rewrite Hc1. exact Hc.
    - rewrite Hca. subst s2. cbn -[after_read Pipeline.consume].
      rewrite Ha1. destruct Hs as (_ & Has & _). exact Has.
    - rewrite Hcf. reflexivity. }
  destruct (pipeline_prepare (consumed s2)) as [o s3]. cbn in Hfin. subst o.
  reflexivity.
Qed.

End AsyncRuns.

(** ** The further properties at concrete sources *)

Lemma parked_stays_parked_witness :
  (RemoteSource.was_query_canceled Examples.parked = false
   /\ RemoteSource.is_async_state Examples.parked = true)
  /\ fst (RemoteSource.prepare ISourceBase.prepare
            (RemoteSource.after_all ISourceBase.prepare
               [RemoteSource.CallPrepare;
                RemoteSource.PortsChanged OutputPort.finish (fun p => p);
                RemoteSource.CallPrepare]
               Examples.parked))
     = Returned Async.
Proof.
  split; [split; reflexivity |].
  destruct (parked_stays_parked ISourceBase.prepare Examples.parked
              [RemoteSource.CallPrepare;
               RemoteSource.PortsChanged OutputPort.finish (fun p => p);
               RemoteSource.CallPrepare] eq_refl eq_refl eq_refl) as (Hp & _).
  rewrite Hp. reflexivity.
Defined.

Lemma at_most_one_marker_witness :
  dependency_pushed
    (RemoteSource.after_all ISourceBase.prepare
       [RemoteSource.CallPrepare; RemoteSource.CallPrepare;
        RemoteSource.CallTryGenerate; RemoteSource.CallPrepare]
       Examples.coordinated)
  = dependency_pushed Examples.coordinated
  \/ dependency_pushed
       (RemoteSource.after_all ISourceBase.prepare
          [RemoteSource.CallPrepare; RemoteSource.CallPrepare;
           RemoteSource.CallTryGenerate; RemoteSource.CallPrepare]
          Examples.coordinated)
     = dependency_pushed Examples.coordinated ++ [Chunk_empty].
Proof.
  exact (at_most_one_marker ISourceBase.prepare Examples.coordinated
           [RemoteSource.CallPrepare; RemoteSource.CallPrepare;
            RemoteSource.CallTryGenerate; RemoteSource.CallPrepare] eq_refl).
Defined.

Lemma finished_closes_dependency_port_witness :
  (RemoteSource.was_query_canceled Examples.closed_by_consumer = false
   /\ RemoteSource.is_async_state Examples.closed_by_consumer = false
   /\ fst (ISourceBase.prepare (RemoteSource.base Examples.closed_by_consumer))
      = Finished)
  /\ fst (RemoteSource.prepare ISourceBase.prepare Examples.closed_by_consumer)
     = Returned Finished
  /\ dependency_pushed
       (RemoteSource.after_all ISourceBase.prepare
          [RemoteSource.CallPrepare; RemoteSource.CallTryGenerate]
          (snd (RemoteSource.prepare ISourceBase.prepare
                  Examples.closed_by_consumer)))
     = [].
Proof.
  split; [repeat split |].
  destruct (finished_closes_dependency_port ISourceBase.prepare
              Examples.closed_by_consumer
              [RemoteSource.CallPrepare; RemoteSource.CallTryGenerate]
              eq_refl eq_refl eq_refl eq_refl)
    as (Hst & _ & _ & _ & _ & _ & Hp).
  split; [exact Hst |]. rewrite Hp. reflexivity.
Defined.

Lemma tryGenerate_end_of_stream_witness :
  (RemoteSource.was_query_canceled Examples.exhausted = false
   /\ source_block Examples.exhausted = Some Block_empty
   /\ Block_bool Block_empty = false)
  /\ fst (RemoteSource.tryGenerate Examples.exhausted) = Returned None
  /\ Session.phase
       (RemoteSource.query_executor
          (snd (RemoteSource.tryGenerate Examples.exhausted)))
     = Session.SessionFinished.
Proof.
  split; [repeat split |].
  destruct (tryGenerate_end_of_stream Examples.exhausted) as (Hiff & Hfin).
  split.
  - apply Hiff. right. exists Block_empty. split; reflexivity.
  - destruct (Hfin eq_refl Block_empty eq_refl eq_refl) as (Hq & _).
    apply (f_equal fst) in Hq. cbn [fst] in Hq. rewrite Hq. reflexivity.
Defined.

Lemma only_generate_reads_witness :
  RemoteSource.was_query_canceled Examples.parked_cancelled = true
  /\ exists tail : list Recorder.Call,
       recorded
         (RemoteSource.after_all ISourceBase.prepare
            [RemoteSource.CallTryGenerate; RemoteSource.CallPrepare;
             RemoteSource.CallOnUpdatePorts; RemoteSource.CallOnCancel]
            Examples.parked_cancelled)
       = recorded Examples.parked_cancelled ++ tail
       /\ forallb is_shutdown tail = true.
Proof.
  split; [reflexivity |].
  destruct (only_generate_reads ISourceBase.prepare) as (_ & Hafter).
  exact (Hafter [RemoteSource.CallTryGenerate; RemoteSource.CallPrepare;
                 RemoteSource.CallOnUpdatePorts; RemoteSource.CallOnCancel]
           Examples.parked_cancelled eq_refl).
Defined.

Lemma blocking_stream_of_any_length_witness :
  (Forall (fun block => Block_bool block = true /\ Block_consistent block = true)
     (fst (read_blocks 2 (submitted_executor Examples.session)))
   /\ Block_bool
        (fst (readBlock (snd (read_blocks 2 (submitted_executor Examples.session)))))
      = false)
  /\ map num_rows
       (RemoteSource.emitted
          (snd (RemoteSource.run 6
                  (RemoteSource.create Examples.session false false 0%N))))
     = [10%N; 5%N].
Proof.
  assert (Hpresent : Forall (fun block => Block_bool block = true /\ Block_consistent block = true)
                       (fst (read_blocks 2 (submitted_executor Examples.session))))
    by (repeat constructor).
  split; [split; [exact Hpresent | reflexivity] |].
  destruct (blocking_stream_of_any_length Examples.session false 0%N 2 0
              Hpresent eq_refl) as (_ & He & _).
  change (2 * 2 + 2 + 0) with 6 in He. rewrite He. reflexivity.
Defined.

Lemma side_channel_emits_until_absent_witness :
  (Forall (fun block => Block_bool block = true /\ Block_consistent block = true)
     (fst (totals_blocks 2 Examples.two_totals))
   /\ Block_bool (fst (getTotals (snd (totals_blocks 2 Examples.two_totals))))
      = false)
  /\ map num_rows
       (RemoteTotalsSource.emitted
          (snd (RemoteTotalsSource.run 6
                  (RemoteTotalsSource.create Examples.two_totals))))
     = [1%N; 4%N]
  /\ map num_rows
       (RemoteExtremesSource.emitted
          (snd (RemoteExtremesSource.run 6
                  (RemoteExtremesSource.create Examples.two_totals))))
     = [2%N; 2%N].
Proof.
  assert (Htotals : Forall (fun block => Block_bool block = true /\ Block_consistent block = true)
                      (fst (totals_blocks 2 Examples.two_totals)))
    by (repeat constructor).
  assert (Hextremes : Forall (fun block => Block_bool block = true /\ Block_consistent block = true)
                        (fst (extremes_blocks 2 Examples.two_totals)))
    by (repeat constructor).
  split; [split; [exact Htotals | reflexivity] |].
  destruct (side_channel_emits_until_absent Examples.two_totals 2 0) as (Ht & Hx).
  destruct (Ht Htotals eq_refl) as (_ & Het & _).
  destruct (Hx Hextremes eq_refl) as (_ & Hex & _).
  change (2 * 2 + 2 + 0) with 6 in Het, Hex.
  split; [rewrite Het | rewrite Hex]; reflexivity.
Defined.

Lemma descriptor_suspends_run_witness :
  (polling (Examples.async_source (FileDescriptor 7))
   /\ fst (read_answer (Examples.async_source (FileDescriptor 7)))
      = FileDescriptor 7)
  /\ fst (RemoteSource.run 2 (Examples.async_source (FileDescriptor 7)))
     = Suspended
  /\ RemoteSource.fd
       (snd (RemoteSource.run 2 (Examples.async_source (FileDescriptor 7))))
     = 7%Z.
Proof.
  assert (Hpolling : polling (Examples.async_source (FileDescriptor 7)))
    by (unfold polling; simpl; auto 10).
  assert (Hanswer : fst (read_answer (Examples.async_source (FileDescriptor 7)))
                    = FileDescriptor 7) by reflexivity.
  split; [split; [exact Hpolling | exact Hanswer] |].
  destruct (descriptor_suspends_run (Examples.async_source (FileDescriptor 7))
              7%Z 0 Hpolling Hanswer) as (Hr & Hfd & _).
  split; [exact Hr | exact Hfd].
Defined.

Lemma nothing_faults_run_witness :
  (polling (Examples.async_source Nothing)
   /\ fst (read_answer (Examples.async_source Nothing)) = Nothing)
  /\ fst (RemoteSource.run 1 (Examples.async_source Nothing))
     = Faulted empty_packet_error.
Proof.
  assert (Hpolling : polling (Examples.async_source Nothing))
    by (unfold polling; simpl; auto 10).
  assert (Hanswer : fst (read_answer (Examples.async_source Nothing)) = Nothing)
    by reflexivity.
  split; [split; [exact Hpolling | exact Hanswer] |].
  destruct (nothing_faults_run (Examples.async_source Nothing) 0 Hpolling Hanswer)
    as (Hr & _).
  exact Hr.
Defined.
